(** * create-table-python.py: the access_logs provisioning script

    A shallow embedding of [scripts/database/create-table-python.py].
    The script is a straight-line Python program that talks to a MySQL
    server through [mysql.connector], prints status lines and ends the
    process with [sys.exit].  It is embedded as a program in a small
    state-and-exception monad over an abstract database driver; the
    observable behaviour of a run is the exit code of the process and the
    ordered trace of driver calls and printed lines.

    A driver call returns or raises an instance of [Exception], as the
    calls of [mysql.connector] do; [print] does not fail; signals are
    outside the model. *)

From Stdlib Require Import String Ascii List ZArith Bool Lia.
From Stdlib Require Import DecimalString.
Import ListNotations.

Local Open Scope list_scope.
Local Open Scope string_scope.

(** ** Python values and exceptions *)

(** The values found in the tuples that [cursor.fetchall()] returns. *)
Inductive value : Type :=
| VStr (s : string)
| VBytes (b : string)
| VInt (z : Z)
| VNone.

(** A result row is a Python tuple. *)
Definition row : Type := list value.

(** The exceptions that are instances of [Exception]:
    [mysql.connector.Error] (and its subclasses) and everything else.
    Each carries the text [str(e)] produces. *)
Inductive exception : Type :=
| MySQLError (msg : string)
| OtherException (msg : string).

(** What can propagate out of a block: an [Exception], or the
    [SystemExit] that [sys.exit] raises. *)
Inductive raised : Type :=
| SystemExit (code : Z)
| Exc (e : exception).

(** The exception classes the script names or raises, and their place in
    Python's hierarchy:
    BaseException > SystemExit, BaseException > Exception > mysql.connector.Error. *)
Inductive exn_class : Type :=
| cBaseException
| cSystemExit
| cException
| c_mysql_connector_Error.

Definition class_of (r : raised) : exn_class :=
  match r with
  | SystemExit _ => cSystemExit
  | Exc (MySQLError _) => c_mysql_connector_Error
  | Exc (OtherException _) => cException
  end.

(** [issubclass sub sup]. *)
Definition issubclass (sub sup : exn_class) : bool :=
  match sub, sup with
  | _, cBaseException => true
  | cSystemExit, cSystemExit => true
  | cException, cException => true
  | c_mysql_connector_Error, cException => true
  | c_mysql_connector_Error, c_mysql_connector_Error => true
  | _, _ => false
  end.

(** [str(e)] for a caught exception. *)
Definition str_exn (e : exception) : string :=
  match e with
  | MySQLError msg => msg
  | OtherException msg => msg
  end.

(** ** Formatting, as f-strings do it *)

Definition nl : string := String (ascii_of_nat 10) EmptyString.

Definition str_nat (n : nat) : string := NilZero.string_of_uint (Nat.to_uint n).

Definition str_Z (z : Z) : string := NilZero.string_of_int (Z.to_int z).

Definition hex_digit (n : nat) : ascii :=
  if Nat.ltb n 10 then ascii_of_nat (48 + n) else ascii_of_nat (87 + n).

Fixpoint contains_ascii (c : ascii) (s : string) : bool :=
  match s with
  | EmptyString => false
  | String a s' => if Ascii.eqb a c then true else contains_ascii c s'
  end.

(** The body of [repr] of a [bytes] object, for the chosen quote. *)
Fixpoint bytes_repr_body (quote : ascii) (b : string) : string :=
  match b with
  | EmptyString => EmptyString
  | String c b' =>
      let n := nat_of_ascii c in
      let rest := bytes_repr_body quote b' in
      if Ascii.eqb c quote || Ascii.eqb c "\"%char then String "\"%char (String c rest)
      else if Nat.eqb n 9 then String "\"%char (String "t"%char rest)
      else if Nat.eqb n 10 then String "\"%char (String "n"%char rest)
      else if Nat.eqb n 13 then String "\"%char (String "r"%char rest)
      else if Nat.ltb n 32 || Nat.leb 127 n then
        String "\"%char (String "x"%char
          (String (hex_digit (n / 16)) (String (hex_digit (n mod 16)) rest)))
      else String c rest
  end.

Definition bytes_repr (b : string) : string :=
  let quote :=
    if contains_ascii "'"%char b && negb (contains_ascii (ascii_of_nat 34) b)
    then ascii_of_nat 34 else "'"%char in
  String "b"%char (String quote (bytes_repr_body quote b ++ String quote EmptyString)).

(** [str(v)], which is what a replacement field [{v}] inserts. *)
Definition str_value (v : value) : string :=
  match v with
  | VStr s => s
  | VBytes b => bytes_repr b
  | VInt z => str_Z z
  | VNone => "None"
  end.

(** [v == 'NO']-style comparison of a fetched value with a [str] literal:
    only a [str] with the same characters compares equal. *)
Definition eq_str (v : value) (lit : string) : bool :=
  match v with
  | VStr s => String.eqb s lit
  | _ => false
  end.

(** ** The database driver *)

(** Keyword arguments of [mysql.connector.connect]. *)
Record conn_params : Type := ConnParams {
  host : string;
  user : string;
  password : string;
  database : string;
  ssl_ca : option string;
  ssl_disabled : bool
}.

(** A driver call either returns or raises an [Exception]. *)
Inductive reply (A : Type) : Type :=
| Returns (a : A)
| Raises (e : exception).
Arguments Returns {A} a.
Arguments Raises {A} e.

(** The part of [mysql.connector] the script uses, over a state [W] of the
    outside world (server, network, session).  The connection and the
    cursor are the only ones the script creates, so they are not named. *)
Record driver (W : Type) : Type := Driver {
  connect : conn_params -> W -> reply unit * W;
  cursor : W -> reply unit * W;
  execute : string -> W -> reply unit * W;
  commit : W -> reply unit * W;
  fetchall : W -> reply (list row) * W;
  cursor_close : W -> reply unit * W;
  connection_close : W -> reply unit * W
}.
Arguments connect {W} d _ _.
Arguments cursor {W} d _.
Arguments execute {W} d _ _.
Arguments commit {W} d _.
Arguments fetchall {W} d _.
Arguments cursor_close {W} d _.
Arguments connection_close {W} d _.

(** ** Observable events *)

Inductive call : Type :=
| Connect (p : conn_params)
| Cursor
| Execute (sql : string)
| Commit
| Fetchall
| CursorClose
| ConnectionClose.

(** How a driver call ended. *)
Inductive ending : Type :=
| Done
| Rows (rs : list row)
| Failed (e : exception).

Inductive event : Type :=
| Call (c : call) (r : ending)
| Print (s : string).

(** ** The script monad: world state, event trace, exceptions *)

Inductive outcome (A : Type) : Type :=
| Ret (a : A)
| Raise (r : raised).
Arguments Ret {A} a.
Arguments Raise {A} r.

Section Script.

Context {W : Type}.
Variable d : driver W.

Definition state : Type := (W * list event)%type.

Definition M (A : Type) : Type := state -> outcome A * state.

Definition ret {A} (a : A) : M A := fun st => (Ret a, st).

Definition bind {A B} (m : M A) (k : A -> M B) : M B :=
  fun st =>
    match m st with
    | (Ret a, st') => k a st'
    | (Raise r, st') => (Raise r, st')
    end.

Notation "x <- m ;; k" := (bind m (fun x => k))
  (at level 61, m at next level, right associativity).
Notation "m ;; k" := (bind m (fun _ => k))
  (at level 61, right associativity).

Definition emit (e : event) : M unit :=
  fun st => (Ret tt, (fst st, (snd st ++ [e])%list)).

(** [print(s)]. *)
Definition print (s : string) : M unit := emit (Print s).

(** [sys.exit(code)]. *)
Definition sys_exit {A} (code : Z) : M A := fun st => (Raise (SystemExit code), st).

(** [raise e]. *)
Definition raise_exc {A} (e : exception) : M A := fun st => (Raise (Exc e), st).

(** A driver call that returns nothing the script uses. *)
Definition call_unit (c : call) (f : W -> reply unit * W) : M unit :=
  fun st =>
    match f (fst st) with
    | (Returns _, w') => (Ret tt, (w', (snd st ++ [Call c Done])%list))
    | (Raises e, w') => (Raise (Exc e), (w', (snd st ++ [Call c (Failed e)])%list))
    end.

Definition do_connect (p : conn_params) : M unit := call_unit (Connect p) (connect d p).
Definition do_cursor : M unit := call_unit Cursor (cursor d).
Definition do_execute (sql : string) : M unit := call_unit (Execute sql) (execute d sql).
Definition do_commit : M unit := call_unit Commit (commit d).
Definition do_cursor_close : M unit := call_unit CursorClose (cursor_close d).
Definition do_connection_close : M unit :=
  call_unit ConnectionClose (connection_close d).

Definition do_fetchall : M (list row) :=
  fun st =>
    match fetchall d (fst st) with
    | (Returns rs, w') => (Ret rs, (w', (snd st ++ [Call Fetchall (Rows rs)])%list))
    | (Raises e, w') =>
        (Raise (Exc e), (w', (snd st ++ [Call Fetchall (Failed e)])%list))
    end.

(** [col[i]] on a tuple. *)
Definition index (col : row) (i : nat) : M value :=
  match nth_error col i with
  | Some v => ret v
  | None => raise_exc (OtherException "tuple index out of range")
  end.

(** [for x in xs: body(x)]. *)
Fixpoint for_each {A} (xs : list A) (body : A -> M unit) : M unit :=
  match xs with
  | [] => ret tt
  | x :: xs' => body x ;; for_each xs' body
  end.

(** The first [except] clause whose class the raised exception is an
    instance of. *)
Fixpoint find_handler {A} (r : raised)
    (handlers : list (exn_class * (exception -> M A))) : option (exception -> M A) :=
  match handlers with
  | [] => None
  | (cls, h) :: rest =>
      if issubclass (class_of r) cls then Some h else find_handler r rest
  end.

(** [try: body  except C1 as e: h1  except C2 as e: h2 ...].  An exception
    raised inside a handler propagates. *)
Definition try_except {A} (body : M A)
    (handlers : list (exn_class * (exception -> M A))) : M A :=
  fun st =>
    match body st with
    | (Ret a, st') => (Ret a, st')
    | (Raise r, st') =>
        match find_handler r handlers, r with
        | Some h, Exc e => h e st'
        | _, _ => (Raise r, st')
        end
    end.

(** ** The script *)

(** Lines 13-20. *)
Definition connection_params : conn_params :=
  {| host := "tshla-mysql-prod.mysql.database.azure.com";
     user := "tshlaadmin";
     password := "TshlaSecure2025!";
     database := "tshla_medical";
     ssl_ca := None;
     ssl_disabled := false |}.

(** Lines 27-44. *)
Definition create_table_sql : string := "
    CREATE TABLE IF NOT EXISTS access_logs (
      id INT AUTO_INCREMENT PRIMARY KEY,
      user_id INT NOT NULL,
      access_type VARCHAR(50) NOT NULL COMMENT 'initial_purchase, renewal, research_access, etc.',
      payment_amount_cents INT DEFAULT 0 COMMENT 'Payment amount in cents (999 = $9.99)',
      ip_address VARCHAR(45) DEFAULT NULL COMMENT 'IPv4 or IPv6 address',
      user_agent TEXT DEFAULT NULL COMMENT 'Browser user agent string',
      created_at TIMESTAMP DEFAULT CURRENT_TIMESTAMP,

      INDEX idx_user_id (user_id),
      INDEX idx_access_type (access_type),
      INDEX idx_created_at (created_at),

      FOREIGN KEY (user_id) REFERENCES pump_users(id) ON DELETE CASCADE
    ) ENGINE=InnoDB DEFAULT CHARSET=utf8mb4 COLLATE=utf8mb4_unicode_ci
    COMMENT='Tracks user access events and payment history for PumpDrive'
    ".

Definition show_tables_sql : string := "SHOW TABLES LIKE 'access_logs'".

Definition describe_sql : string := "DESCRIBE access_logs".

(** Line 64: the text printed for one row of the DESCRIBE result. *)
Definition column_line (col : row) : M string :=
  c0 <- index col 0 ;;
  c1 <- index col 1 ;;
  c2 <- index col 2 ;;
  ret ("  - " ++ str_value c0 ++ ": " ++ str_value c1 ++ " "
         ++ (if eq_str c2 "NO" then "NOT NULL" else "NULL")).

(** Lines 63-64. *)
Definition print_columns (columns : list row) : M unit :=
  for_each columns (fun col => line <- column_line col ;; print line).

(** Lines 56-67. *)
Definition verify (result : list row) : M unit :=
  match result with
  | _ :: _ =>
      print ("📊 Verification: Table exists! Found "
               ++ str_nat (length result) ++ " match(es)") ;;
      do_execute describe_sql ;;
      columns <- do_fetchall ;;
      print (nl ++ "📋 Table structure:") ;;
      print_columns columns
  | [] =>
      print "❌ ERROR: Table not found after creation!" ;;
      sys_exit 1
  end.

(** Lines 12-73: the body of the [try]. *)
Definition try_body : M unit :=
  do_connect connection_params ;;
  print "✅ Connected successfully!" ;;
  do_cursor ;;
  print "📝 Creating access_logs table..." ;;
  do_execute create_table_sql ;;
  do_commit ;;
  print "✅ Table created successfully!" ;;
  do_execute show_tables_sql ;;
  result <- do_fetchall ;;
  verify result ;;
  do_cursor_close ;;
  do_connection_close ;;
  print (nl ++ "✨ Done! The access_logs table is now ready.") ;;
  sys_exit 0.

(** Lines 75-77. *)
Definition on_mysql_error (err : exception) : M unit :=
  print ("❌ MySQL Error: " ++ str_exn err) ;;
  sys_exit 1.

(** Lines 78-80. *)
Definition on_exception (e : exception) : M unit :=
  print ("💥 Error: " ++ str_exn e) ;;
  sys_exit 1.

(** Lines 9-80: the module body. *)
Definition script : M unit :=
  print "🔧 Connecting to production database..." ;;
  try_except try_body
    [ (c_mysql_connector_Error, on_mysql_error);
      (cException, on_exception) ].

(** ** The process *)

(** The exit status the interpreter ends with: the code of an uncaught
    [SystemExit], 1 after the traceback of any other uncaught exception,
    0 when the module body runs to its end. *)
Definition exit_status (o : outcome unit) : Z :=
  match o with
  | Ret _ => 0
  | Raise (SystemExit code) => code
  | Raise (Exc _) => 1
  end.

Record run_result : Type := RunResult {
  exit_code : Z;
  trace : list event;
  final_world : W
}.

Definition run (w : W) : run_result :=
  match script (w, []) with
  | (o, (w', tr)) => {| exit_code := exit_status o; trace := tr; final_world := w' |}
  end.

End Script.

Arguments run {W} d w.
Arguments exit_code {W} r.
Arguments trace {W} r.
Arguments final_world {W} r.

(** ** Reading a trace *)

(** The driver calls of a trace, in order. *)
Fixpoint calls_of (tr : list event) : list call :=
  match tr with
  | [] => []
  | Call c _ :: tr' => c :: calls_of tr'
  | Print _ :: tr' => calls_of tr'
  end.

(** The printed lines of a trace, in order. *)
Fixpoint printed (tr : list event) : list string :=
  match tr with
  | [] => []
  | Call _ _ :: tr' => printed tr'
  | Print s :: tr' => s :: printed tr'
  end.

Definition is_close (c : call) : bool :=
  match c with
  | CursorClose | ConnectionClose => true
  | _ => false
  end.

(** The calls of the script in program order (lines 13, 24, 47, 48, 53,
    54, 60, 61, 69, 70). *)
Definition program_calls : list call :=
  [ Connect connection_params; Cursor; Execute create_table_sql; Commit;
    Execute show_tables_sql; Fetchall; Execute describe_sql; Fetchall;
    CursorClose; ConnectionClose ].

(** The text line 64 prints for a row that has its first three fields. *)
Definition listing_line (col : row) : string :=
  "  - " ++ str_value (nth 0 col VNone) ++ ": " ++ str_value (nth 1 col VNone) ++ " "
    ++ (if eq_str (nth 2 col VNone) "NO" then "NOT NULL" else "NULL").

Definition wide (col : row) : bool := Nat.leb 3 (length col).

(** The rows of [columns] that line 64 gets through: all of them, or
    those before the first tuple with fewer than three fields. *)
Fixpoint listed (columns : list row) : list row :=
  match columns with
  | [] => []
  | col :: rest => if wide col then col :: listed rest else []
  end.

(** The events of a run up to the heading of the column listing (lines
    9-62), for the rows the two queries returned. *)
Definition upto_listing (result columns : list row) : list event :=
  [ Print "🔧 Connecting to production database...";
    Call (Connect connection_params) Done;
    Print "✅ Connected successfully!";
    Call Cursor Done;
    Print "📝 Creating access_logs table...";
    Call (Execute create_table_sql) Done;
    Call Commit Done;
    Print "✅ Table created successfully!";
    Call (Execute show_tables_sql) Done;
    Call Fetchall (Rows result);
    Print ("📊 Verification: Table exists! Found "
             ++ str_nat (length result) ++ " match(es)");
    Call (Execute describe_sql) Done;
    Call Fetchall (Rows columns);
    Print (nl ++ "📋 Table structure:") ].

(** The column listing (lines 63-64). *)
Definition listing (columns : list row) : list event :=
  map (fun col => Print (listing_line col)) columns.

(** Lines 69-72. *)
Definition closing : list event :=
  [ Call CursorClose Done;
    Call ConnectionClose Done;
    Print (nl ++ "✨ Done! The access_logs table is now ready.") ].

(** The trace of a run in which every step succeeds. *)
Definition success_trace (result columns : list row) : list event :=
  (upto_listing result columns ++ listing columns ++ closing)%list.

(** The trace of a run whose catalog query came back empty. *)
Definition not_found_trace : list event :=
  [ Print "🔧 Connecting to production database...";
    Call (Connect connection_params) Done;
    Print "✅ Connected successfully!";
    Call Cursor Done;
    Print "📝 Creating access_logs table...";
    Call (Execute create_table_sql) Done;
    Call Commit Done;
    Print "✅ Table created successfully!";
    Call (Execute show_tables_sql) Done;
    Call Fetchall (Rows []);
    Print "❌ ERROR: Table not found after creation!" ].

(** What the handler of lines 75-80 that catches [e] prints. *)
Definition handler_line (e : exception) : string :=
  match e with
  | MySQLError msg => "❌ MySQL Error: " ++ msg
  | OtherException msg => "💥 Error: " ++ msg
  end.

(** The events of [tr] that come before its [k]-th driver call (counting
    from 0). *)
Fixpoint before_call (k : nat) (tr : list event) : list event :=
  match tr with
  | [] => []
  | Print s :: tr' => Print s :: before_call k tr'
  | Call c r :: tr' =>
      match k with
      | O => []
      | S k' => Call c r :: before_call k' tr'
      end
  end.

(** The four ways a run can go, with its exit code and trace:
    everything succeeds; the catalog query finds nothing; the [k]-th
    driver call raises [e] and a handler reports it; a DESCRIBE row is
    too short to be printed and the second handler reports the
    IndexError. *)
Inductive run_shape : Z -> list event -> Prop :=
| shape_success (result columns : list row) :
    result <> [] ->
    forallb wide columns = true ->
    run_shape 0 (success_trace result columns)
| shape_not_found :
    run_shape 1 not_found_trace
| shape_call_failed (k : nat) (e : exception) (result columns : list row) :
    k < 10 ->
    run_shape 1
      (before_call k (success_trace result columns)
         ++ [ Call (nth k program_calls Commit) (Failed e);
              Print (handler_line e) ])%list
| shape_index_error (result columns : list row) :
    result <> [] ->
    forallb wide columns = false ->
    run_shape 1
      (upto_listing result columns ++ listing (listed columns)
         ++ [ Print "💥 Error: tuple index out of range" ])%list.

(** ** What the driver was asked *)

Section Replay.

Context {W : Type}.
Variable d : driver W.

Definition ending_of (r : reply unit) : ending :=
  match r with
  | Returns _ => Done
  | Raises e => Failed e
  end.

Definition rows_ending_of (r : reply (list row)) : ending :=
  match r with
  | Returns rs => Rows rs
  | Raises e => Failed e
  end.

(** The driver's answer to one call made in the world [w], and the world
    it leaves. *)
Definition apply_call (c : call) (w : W) : ending * W :=
  match c with
  | Connect p => (ending_of (fst (connect d p w)), snd (connect d p w))
  | Cursor => (ending_of (fst (cursor d w)), snd (cursor d w))
  | Execute sql => (ending_of (fst (execute d sql w)), snd (execute d sql w))
  | Commit => (ending_of (fst (commit d w)), snd (commit d w))
  | Fetchall => (rows_ending_of (fst (fetchall d w)), snd (fetchall d w))
  | CursorClose => (ending_of (fst (cursor_close d w)), snd (cursor_close d w))
  | ConnectionClose =>
      (ending_of (fst (connection_close d w)), snd (connection_close d w))
  end.

(** The driver asked the calls [cs] one after the other, starting in the
    world [w]: its answers, as events, and the world it ends in. *)
Fixpoint drive (cs : list call) (w : W) : list event * W :=
  match cs with
  | [] => ([], w)
  | c :: cs' =>
      let (r, w1) := apply_call c w in
      let (evs, w2) := drive cs' w1 in
      (Call c r :: evs, w2)
  end.

End Replay.

(** The call events of a trace, in order. *)
Fixpoint call_events (tr : list event) : list event :=
  match tr with
  | [] => []
  | Call c r :: tr' => Call c r :: call_events tr'
  | Print _ :: tr' => call_events tr'
  end.

(** A computation of the script is faithful to the driver when the call
    events it appends to the trace are the answers the driver gives to
    those calls, made in that order from the world the computation
    starts in, and the world it ends in is the one the driver is left
    in. *)
Definition faithful {W : Type} (d : driver W) {A : Type} (m : @M W A) : Prop :=
  forall (w : W) (tr : list event),
  exists evs,
    snd (snd (m (w, tr))) = (tr ++ evs)%list /\
    drive d (calls_of evs) w = (call_events evs, fst (snd (m (w, tr)))).

(** ** Paths through the script, in terms of what the driver answers *)

Section Paths.

Context {W : Type}.
Variable d : driver W.

(** Lines 13-54 run without an exception and the catalog query returns
    [result], leaving the world in [w']. *)
Definition reaches_verification (w : W) (result : list row) (w' : W) : Prop :=
  exists w1 w2 w3 w4 w5,
    connect d connection_params w = (Returns tt, w1) /\
    cursor d w1 = (Returns tt, w2) /\
    execute d create_table_sql w2 = (Returns tt, w3) /\
    commit d w3 = (Returns tt, w4) /\
    execute d show_tables_sql w4 = (Returns tt, w5) /\
    fetchall d w5 = (Returns result, w').

(** Moreover [result] is not empty and the DESCRIBE query (lines 60-61)
    returns [columns]. *)
Definition reaches_listing (w : W) (result columns : list row) (w' : W) : Prop :=
  exists w6 w7,
    reaches_verification w result w6 /\
    result <> [] /\
    execute d describe_sql w6 = (Returns tt, w7) /\
    fetchall d w7 = (Returns columns, w').

(** Every step of the [try] body completes: no driver call raises, the
    catalog query finds the table, every DESCRIBE row can be printed, and
    both [close] calls return. *)
Definition all_steps_succeed (w : W) : Prop :=
  exists result columns w8 w9 w10,
    reaches_listing w result columns w8 /\
    forallb wide columns = true /\
    cursor_close d w8 = (Returns tt, w9) /\
    connection_close d w9 = (Returns tt, w10).

(** The steps up to and including the post-creation verification
    (connection, DDL execution, commit, the catalog query finding the
    table and the DESCRIBE of lines 60-64 going through) all succeed. *)
Definition named_steps_succeed (w : W) : Prop :=
  exists result columns w8,
    reaches_listing w result columns w8 /\ forallb wide columns = true.

End Paths.

(** ** A driver that plays back prepared answers *)

(** One prepared answer per driver call, consumed in order; once they
    run out every call returns (with no rows). *)
Inductive answer : Type :=
| AOk
| ARows (rs : list row)
| AErr (e : exception).

Definition play_unit (w : list answer) : reply unit * list answer :=
  match w with
  | AErr e :: w' => (Raises e, w')
  | _ :: w' => (Returns tt, w')
  | [] => (Returns tt, [])
  end.

Definition play_rows (w : list answer) : reply (list row) * list answer :=
  match w with
  | AErr e :: w' => (Raises e, w')
  | ARows rs :: w' => (Returns rs, w')
  | AOk :: w' => (Returns [], w')
  | [] => (Returns [], [])
  end.

Definition playback : driver (list answer) :=
  {| connect := fun _ => play_unit;
     cursor := play_unit;
     execute := fun _ => play_unit;
     commit := play_unit;
     fetchall := play_rows;
     cursor_close := play_unit;
     connection_close := play_unit |}.

(** Answers of a server on which everything works; DESCRIBE rows as
    MySQL 8 reports them for the table of [create_table_sql]. *)
Definition describe_rows : list row :=
  [ [VStr "id"; VStr "int"; VStr "NO"; VStr "PRI"; VNone; VStr "auto_increment"];
    [VStr "user_id"; VStr "int"; VStr "NO"; VStr "MUL"; VNone; VStr ""];
    [VStr "access_type"; VStr "varchar(50)"; VStr "NO"; VStr "MUL"; VNone; VStr ""];
    [VStr "payment_amount_cents"; VStr "int"; VStr "YES"; VStr ""; VStr "0"; VStr ""];
    [VStr "ip_address"; VStr "varchar(45)"; VStr "YES"; VStr ""; VNone; VStr ""];
    [VStr "user_agent"; VStr "text"; VStr "YES"; VStr ""; VNone; VStr ""];
    [VStr "created_at"; VStr "timestamp"; VStr "YES"; VStr "MUL";
     VStr "CURRENT_TIMESTAMP"; VStr "DEFAULT_GENERATED"] ].

Definition answers_ok : list answer :=
  [ AOk; AOk; AOk; AOk; AOk; ARows [[VStr "access_logs"]];
    AOk; ARows describe_rows; AOk; AOk ].

(** The catalog query finds nothing although no call raised. *)
Definition answers_not_found : list answer :=
  [ AOk; AOk; AOk; AOk; AOk; ARows [] ].

(** Everything works until [connection.close()] raises. *)
Definition answers_close_fails : list answer :=
  [ AOk; AOk; AOk; AOk; AOk; ARows [[VStr "access_logs"]];
    AOk; ARows describe_rows; AOk;
    AErr (MySQLError "2055: Lost connection to MySQL server") ].

(** [mysql.connector.connect] rejects the credentials. *)
Definition answers_access_denied : list answer :=
  [ AErr (MySQLError "1045 (28000): Access denied for user 'tshlaadmin'") ].

(** ** A model of the MySQL server behind the driver

    What the claims say about the table itself (that creation is
    conditional, what DESCRIBE reports afterwards) is decided by the
    server, not by the script.  [MySQL] models the server for the three
    statements the script sends and for the column attributes its DDL
    uses: it reads the SQL text, keeps a catalog of tables with their data
    rows, and answers as MySQL 8 does.  Identifiers are compared as
    written; key words in any case. *)
Module MySQL.

Inductive token : Type :=
| TWord (w : string)
| TStr (s : string)
| TSym (c : ascii).

Definition is_space (c : ascii) : bool :=
  let n := nat_of_ascii c in
  Nat.eqb n 32 || Nat.eqb n 9 || Nat.eqb n 10 || Nat.eqb n 13.

Definition is_symbol (c : ascii) : bool :=
  Ascii.eqb c "("%char || Ascii.eqb c ")"%char || Ascii.eqb c ","%char
  || Ascii.eqb c "="%char || Ascii.eqb c ";"%char.

Definition upper_ascii (c : ascii) : ascii :=
  let n := nat_of_ascii c in
  if Nat.leb 97 n && Nat.leb n 122 then ascii_of_nat (n - 32) else c.

Definition lower_ascii (c : ascii) : ascii :=
  let n := nat_of_ascii c in
  if Nat.leb 65 n && Nat.leb n 90 then ascii_of_nat (n + 32) else c.

Fixpoint map_string (f : ascii -> ascii) (s : string) : string :=
  match s with
  | EmptyString => EmptyString
  | String c s' => String (f c) (map_string f s')
  end.

Definition upper : string -> string := map_string upper_ascii.
Definition lower : string -> string := map_string lower_ascii.

Definition flush (word : string) (rest : list token) : list token :=
  match word with
  | EmptyString => rest
  | _ => TWord word :: rest
  end.

(** The lexer: [word] is the word being read, [quoted] the text of the
    single-quoted literal being read, if any. *)
Fixpoint lex (s : string) (word : string) (quoted : option string) : list token :=
  match s with
  | EmptyString =>
      match quoted with
      | Some q => [TStr q]
      | None => flush word []
      end
  | String c s' =>
      match quoted with
      | Some q =>
          if Ascii.eqb c "'"%char then TStr q :: lex s' "" None
          else lex s' "" (Some (q ++ String c ""))
      | None =>
          if Ascii.eqb c "'"%char then flush word (lex s' "" (Some ""))
          else if is_space c then flush word (lex s' "" None)
          else if is_symbol c then flush word (TSym c :: lex s' "" None)
          else lex s' (word ++ String c "") None
      end
  end.

Definition tokens (sql : string) : list token := lex sql "" None.

(** A column as DESCRIBE reports it. *)
Record column : Type := Column {
  col_field : string;
  col_type : string;
  col_nullable : bool;
  col_key : string;
  col_default : option string;
  col_extra : string
}.

Inductive item : Type :=
| ColumnDef (c : column) (explicit_null : bool)
| IndexDef (columns : list string)
| PrimaryKeyDef (columns : list string)
| ForeignKeyDef (columns : list string) (ref_table : string).

Inductive statement : Type :=
| CreateTable (if_not_exists : bool) (name : string) (items : list item)
| ShowTablesLike (pattern : string)
| Describe (name : string).

(** The items between the parentheses of CREATE TABLE, split at the
    commas that are not nested, and the tokens after the closing one. *)
Fixpoint split_items (ts : list token) (depth : nat) (cur : list token)
  : option (list (list token) * list token) :=
  match ts with
  | [] => None
  | TSym c :: ts' =>
      if Ascii.eqb c "("%char then split_items ts' (S depth) (cur ++ [TSym c])
      else if Ascii.eqb c ")"%char then
        match depth with
        | O => Some ([cur], ts')
        | S k => split_items ts' k (cur ++ [TSym c])
        end
      else if Ascii.eqb c ","%char then
        match depth with
        | O =>
            match split_items ts' O [] with
            | Some (items, rest) => Some (cur :: items, rest)
            | None => None
            end
        | S _ => split_items ts' depth (cur ++ [TSym c])
        end
      else split_items ts' depth (cur ++ [TSym c])
  | t :: ts' => split_items ts' depth (cur ++ [t])
  end.

Fixpoint names_until_close (ts : list token) : option (list string * list token) :=
  match ts with
  | TSym c :: ts' =>
      if Ascii.eqb c ")"%char then Some ([], ts')
      else if Ascii.eqb c ","%char then names_until_close ts'
      else None
  | TWord w :: ts' =>
      match names_until_close ts' with
      | Some (ns, rest) => Some (w :: ns, rest)
      | None => None
      end
  | _ => None
  end.

(** A parenthesised list of names. *)
Definition paren_names (ts : list token) : option (list string * list token) :=
  match ts with
  | TSym c :: ts' => if Ascii.eqb c "("%char then names_until_close ts' else None
  | _ => None
  end.

Fixpoint join (sep : string) (ws : list string) : string :=
  match ws with
  | [] => ""
  | [w] => w
  | w :: ws' => w ++ sep ++ join sep ws'
  end.

Definition set_nullable (c : column) (b : bool) : column :=
  Column (col_field c) (col_type c) b (col_key c) (col_default c) (col_extra c).

Definition set_key (c : column) (k : string) : column :=
  Column (col_field c) (col_type c) (col_nullable c) k (col_default c) (col_extra c).

Definition set_default (c : column) (v : option string) : column :=
  Column (col_field c) (col_type c) (col_nullable c) (col_key c) v (col_extra c).

Definition set_extra (c : column) (x : string) : column :=
  Column (col_field c) (col_type c) (col_nullable c) (col_key c) (col_default c) x.

(** One token of a column's attributes; [prev] is the key word before it
    when that key word still waits for its argument. *)
Definition attr_step (acc : column * bool * string) (t : token)
  : column * bool * string :=
  let '(c, explicit_null, prev) := acc in
  match t with
  | TWord w =>
      let u := upper w in
      if String.eqb prev "NOT" && String.eqb u "NULL" then
        (set_nullable c false, explicit_null, "")
      else if String.eqb prev "DEFAULT" then
        if String.eqb u "NULL" then (set_default c None, explicit_null, "")
        else if String.eqb u "CURRENT_TIMESTAMP" then
          (set_extra (set_default c (Some u)) "DEFAULT_GENERATED", explicit_null, "")
        else (set_default c (Some w), explicit_null, "")
      else if String.eqb prev "PRIMARY" && String.eqb u "KEY" then
        (set_key (set_nullable c false) "PRI", explicit_null, "")
      else if String.eqb u "NULL" then (c, true, "")
      else if String.eqb u "AUTO_INCREMENT" then
        (set_extra c "auto_increment", explicit_null, "")
      else (c, explicit_null, u)
  | TStr s =>
      if String.eqb prev "DEFAULT" then (set_default c (Some s), explicit_null, "")
      else (c, explicit_null, "")
  | TSym _ => (c, explicit_null, "")
  end.

Definition parse_column (name ty : string) (ts : list token) : item :=
  let '(ty', attrs) :=
    match paren_names ts with
    | Some (args, rest) => (lower ty ++ "(" ++ join "," args ++ ")", rest)
    | None => (lower ty, ts)
    end in
  let '(c, explicit_null, _) :=
    fold_left attr_step attrs (Column name ty' true "" None "", false, "") in
  ColumnDef c explicit_null.

Definition parse_item (ts : list token) : option item :=
  match ts with
  | TWord w1 :: rest =>
      let u1 := upper w1 in
      if String.eqb u1 "INDEX" || String.eqb u1 "KEY" then
        match rest with
        | TWord _ :: rest' =>
            match paren_names rest' with
            | Some (cols, _) => Some (IndexDef cols)
            | None => None
            end
        | _ => None
        end
      else if String.eqb u1 "PRIMARY" then
        match rest with
        | TWord _ :: rest' =>
            match paren_names rest' with
            | Some (cols, _) => Some (PrimaryKeyDef cols)
            | None => None
            end
        | _ => None
        end
      else if String.eqb u1 "FOREIGN" then
        match rest with
        | TWord _ :: rest' =>
            match paren_names rest' with
            | Some (cols, TWord r :: TWord t :: _) =>
                if String.eqb (upper r) "REFERENCES" then Some (ForeignKeyDef cols t)
                else None
            | _ => None
            end
        | _ => None
        end
      else
        match rest with
        | TWord ty :: rest' => Some (parse_column w1 ty rest')
        | _ => None
        end
  | _ => None
  end.

Fixpoint parse_items (tss : list (list token)) : option (list item) :=
  match tss with
  | [] => Some []
  | ts :: tss' =>
      match parse_item ts, parse_items tss' with
      | Some i, Some items => Some (i :: items)
      | _, _ => None
      end
  end.

Definition parse_create (if_not_exists : bool) (ts : list token) : option statement :=
  match ts with
  | TWord name :: TSym c :: body =>
      if Ascii.eqb c "("%char then
        match split_items body O [] with
        | Some (tss, _) =>
            match parse_items tss with
            | Some items => Some (CreateTable if_not_exists name items)
            | None => None
            end
        | None => None
        end
      else None
  | _ => None
  end.

Definition word_is (t : token) (kw : string) : bool :=
  match t with
  | TWord w => String.eqb (upper w) kw
  | _ => false
  end.

Definition parse (sql : string) : option statement :=
  match tokens sql with
  | t1 :: t2 :: rest =>
      if word_is t1 "CREATE" && word_is t2 "TABLE" then
        match rest with
        | a :: b :: c :: rest' =>
            if word_is a "IF" && word_is b "NOT" && word_is c "EXISTS"
            then parse_create true rest'
            else parse_create false rest
        | _ => None
        end
      else if word_is t1 "SHOW" && word_is t2 "TABLES" then
        match rest with
        | [l; TStr pat] => if word_is l "LIKE" then Some (ShowTablesLike pat) else None
        | _ => None
        end
      else if word_is t1 "DESCRIBE" || word_is t1 "DESC" then
        match t2, rest with
        | TWord name, [] => Some (Describe name)
        | _, _ => None
        end
      else None
  | _ => None
  end.

(** SQL's LIKE: [%] stands for any run of characters, [_] for any one
    character, and a backslash takes the next character literally. *)
Fixpoint like (pat s : string) : bool :=
  match pat with
  | EmptyString =>
      match s with
      | EmptyString => true
      | _ => false
      end
  | String p pat' =>
      if Ascii.eqb p "%"%char then
        (fix any (s : string) : bool :=
           like pat' s
           || match s with
              | EmptyString => false
              | String _ s' => any s'
              end) s
      else if Ascii.eqb p "_"%char then
        match s with
        | String _ s' => like pat' s'
        | EmptyString => false
        end
      else if Ascii.eqb p "\"%char then
        match pat', s with
        | String q pat'', String c s' => Ascii.eqb q c && like pat'' s'
        | _, _ => false
        end
      else
        match s with
        | String c s' => Ascii.eqb p c && like pat' s'
        | EmptyString => false
        end
  end.

(** A table: its columns and its data rows. *)
Record table : Type := Table {
  tbl_columns : list column;
  tbl_rows : list row
}.

Record server : Type := Server {
  srv_user : string;
  srv_password : string;
  srv_database : string;
  explicit_defaults_for_timestamp : bool;
  tables : list (string * table);
  result_set : option (list row)
}.

Definition with_tables (s : server) (ts : list (string * table)) : server :=
  Server (srv_user s) (srv_password s) (srv_database s)
         (explicit_defaults_for_timestamp s) ts (result_set s).

Definition with_result (s : server) (rs : option (list row)) : server :=
  Server (srv_user s) (srv_password s) (srv_database s)
         (explicit_defaults_for_timestamp s) (tables s) rs.

Fixpoint lookup (name : string) (ts : list (string * table)) : option table :=
  match ts with
  | [] => None
  | (n, t) :: ts' => if String.eqb n name then Some t else lookup name ts'
  end.

Definition head_is (name : string) (cols : list string) : bool :=
  match cols with
  | n :: _ => String.eqb n name
  | [] => false
  end.

Definition mem (name : string) (cols : list string) : bool :=
  existsb (String.eqb name) cols.

(** The effect of the table-level items on one column: a PRIMARY KEY item
    makes it NOT NULL with key PRI, an index or a foreign key that starts
    with it gives it key MUL. *)
Definition apply_item (c : column) (i : item) : column :=
  match i with
  | ColumnDef _ _ => c
  | PrimaryKeyDef cols =>
      if mem (col_field c) cols then set_key (set_nullable c false) "PRI" else c
  | IndexDef cols | ForeignKeyDef cols _ =>
      if head_is (col_field c) cols && String.eqb (col_key c) "" then set_key c "MUL"
      else c
  end.

(** A TIMESTAMP column that is not declared NULL is NOT NULL unless the
    server runs with [explicit_defaults_for_timestamp]. *)
Definition timestamp_rule (explicit : bool) (c : column) (explicit_null : bool) : column :=
  if String.eqb (col_type c) "timestamp" && negb explicit && negb explicit_null
  then set_nullable c false else c.

Fixpoint columns_of (explicit : bool) (all items : list item) : list column :=
  match items with
  | [] => []
  | ColumnDef c explicit_null :: items' =>
      fold_left apply_item all (timestamp_rule explicit c explicit_null)
        :: columns_of explicit all items'
  | _ :: items' => columns_of explicit all items'
  end.

Fixpoint references_of (items : list item) : list string :=
  match items with
  | [] => []
  | ForeignKeyDef _ t :: items' => t :: references_of items'
  | _ :: items' => references_of items'
  end.

Definition exists_table (s : server) (name : string) : bool :=
  match lookup name (tables s) with
  | Some _ => true
  | None => false
  end.

Definition describe_row (c : column) : row :=
  [ VStr (col_field c); VStr (col_type c);
    VStr (if col_nullable c then "YES" else "NO"); VStr (col_key c);
    match col_default c with
    | Some v => VStr v
    | None => VNone
    end;
    VStr (col_extra c) ].

Fixpoint names_like (pat : string) (ts : list (string * table)) : list row :=
  match ts with
  | [] => []
  | (n, _) :: ts' => if like pat n then [VStr n] :: names_like pat ts' else names_like pat ts'
  end.

(** What the server does with a statement.  A foreign key is checked by
    the name of the table it refers to only; nothing here changes or
    drops a table that exists. *)
Definition run_statement (st : statement) (s : server) : reply unit * server :=
  match st with
  | CreateTable if_not_exists name items =>
      if exists_table s name then
        if if_not_exists then (Returns tt, with_result s None)
        else (Raises (MySQLError ("1050 (42S01): Table '" ++ name ++ "' already exists")),
              with_result s None)
      else
        match filter (fun t => negb (exists_table s t)) (references_of items) with
        | [] =>
            (Returns tt,
             with_result
               (with_tables s
                  (tables s ++
                   [(name, Table (columns_of (explicit_defaults_for_timestamp s) items items) [])]))
               None)
        | t :: _ =>
            (Raises (MySQLError
                       ("1824 (HY000): Failed to open the referenced table '" ++ t ++ "'")),
             with_result s None)
        end
  | ShowTablesLike pat => (Returns tt, with_result s (Some (names_like pat (tables s))))
  | Describe name =>
      match lookup name (tables s) with
      | Some t => (Returns tt, with_result s (Some (map describe_row (tbl_columns t))))
      | None =>
          (Raises (MySQLError
                     ("1146 (42S02): Table '" ++ srv_database s ++ "." ++ name
                        ++ "' doesn't exist")),
           with_result s None)
      end
  end.

Definition srv_execute (sql : string) (s : server) : reply unit * server :=
  match parse sql with
  | Some st => run_statement st s
  | None =>
      (Raises (MySQLError "1064 (42000): You have an error in your SQL syntax"),
       with_result s None)
  end.

(** The server lets in the one account it knows, for its one schema. *)
Definition accepts (s : server) (p : conn_params) : bool :=
  String.eqb (user p) (srv_user s) && String.eqb (password p) (srv_password s)
  && String.eqb (database p) (srv_database s).

Definition srv_connect (p : conn_params) (s : server) : reply unit * server :=
  if accepts s p then (Returns tt, s)
  else (Raises (MySQLError
                  ("1045 (28000): Access denied for user '" ++ user p ++ "'")), s).

Definition srv_fetchall (s : server) : reply (list row) * server :=
  match result_set s with
  | Some rs => (Returns rs, with_result s None)
  | None => (Raises (MySQLError "No result set to fetch from"), s)
  end.

Definition quiet (s : server) : reply unit * server := (Returns tt, s).

(** [mysql.connector] talking to the modelled server over a network that
    does not fail. *)
Definition mysql : driver server :=
  {| connect := srv_connect;
     cursor := quiet;
     execute := srv_execute;
     commit := quiet;
     fetchall := srv_fetchall;
     cursor_close := quiet;
     connection_close := quiet |}.

(** The table every DDL of this repository refers to. *)
Definition pump_users : table :=
  Table [ Column "id" "int" false "PRI" None "auto_increment" ] [].

(** A server that knows the script's account and holds [ts]. *)
Definition production (explicit : bool) (ts : list (string * table)) : server :=
  Server "tshlaadmin" "TshlaSecure2025!" "tshla_medical" explicit ts None.

(** An [access_logs] table left behind by an earlier schema, with data. *)
Definition legacy_access_logs : table :=
  Table [ Column "id" "int" false "PRI" None "auto_increment";
          Column "note" "text" true "" None "" ]
        [ [VInt 1; VStr "first"] ].

(** The columns the server builds from [create_table_sql]; the flag is
    the server's [explicit_defaults_for_timestamp], which decides whether
    [created_at] may be NULL. *)
Definition access_logs_columns (explicit : bool) : list column :=
  [ Column "id" "int" false "PRI" None "auto_increment";
    Column "user_id" "int" false "MUL" None "";
    Column "access_type" "varchar(50)" false "MUL" None "";
    Column "payment_amount_cents" "int" true "" (Some "0") "";
    Column "ip_address" "varchar(45)" true "" None "";
    Column "user_agent" "text" true "" None "";
    Column "created_at" "timestamp" explicit "MUL" (Some "CURRENT_TIMESTAMP")
           "DEFAULT_GENERATED" ].

(** The catalog after the DDL has created the table. *)
Definition with_access_logs (s : server) : server :=
  with_result
    (with_tables s
       (tables s ++
        [("access_logs",
          Table (access_logs_columns (explicit_defaults_for_timestamp s)) [])]))
    None.

(** A production server that already holds a legacy [access_logs]. *)
Definition legacy_server : server :=
  production true [ ("pump_users", pump_users); ("access_logs", legacy_access_logs) ].

(** A production server on which the table has yet to be created. *)
Definition fresh_server : server :=
  production true [ ("pump_users", pump_users) ].

End MySQL.


(** * Properties *)

Local Open Scope list_scope.

(** ** Executing the script, step by step *)

(** Unfolds the script down to the driver calls. *)
Ltac unfold_script :=
  unfold run, script, try_except, try_body, verify, on_mysql_error, on_exception,
    bind, do_connect, do_cursor, do_execute, do_commit, do_fetchall,
    do_cursor_close, do_connection_close, call_unit, print, emit, sys_exit, ret;
  cbn [fst snd app find_handler class_of issubclass exit_status].

(** Runs the script one driver call further along an answer that is known. *)
Ltac along H :=
  rewrite H; cbn [fst snd app find_handler class_of issubclass exit_status].

(** Splits on the answer of the next driver call. *)
Tactic Notation "branch" constr(c) ident(w') ident(e) ident(E) :=
  destruct c as [[[]|e] w'] eqn:E;
  cbn [fst snd app find_handler class_of issubclass exit_status exit_code trace].

Tactic Notation "branch_rows" constr(c) ident(rs) ident(w') ident(e) ident(E) :=
  destruct c as [[rs|e] w'] eqn:E;
  cbn [fst snd app find_handler class_of issubclass exit_status exit_code trace].

Section Execution.

Context {W : Type}.
Variable d : driver W.

Lemma wide_inv (col : row) :
  wide col = true -> exists c0 c1 c2 rest, col = c0 :: c1 :: c2 :: rest.
Proof.
  destruct col as [|c0 [|c1 [|c2 rest]]]; simpl; try discriminate.
  intros _. now exists c0, c1, c2, rest.
Qed.

Lemma column_line_wide (col : row) (st : @state W) :
  wide col = true -> column_line col st = (Ret (listing_line col), st).
Proof.
  intros H. destruct (wide_inv col H) as (c0 & c1 & c2 & rest & ->). reflexivity.
Qed.

Lemma column_line_narrow (col : row) (st : @state W) :
  wide col = false ->
  column_line col st = (Raise (Exc (OtherException "tuple index out of range")), st).
Proof.
  destruct col as [|c0 [|c1 [|c2 rest]]]; simpl; try discriminate; reflexivity.
Qed.

(** The loop of lines 63-64 prints one line per row until a row is too
    short. *)
Lemma print_columns_spec (columns : list row) (w : W) (tr : list event) :
  print_columns columns (w, tr) =
    if forallb wide columns
    then (Ret tt, (w, tr ++ listing columns))
    else (Raise (Exc (OtherException "tuple index out of range")),
          (w, tr ++ listing (listed columns))).
Proof.
  revert tr. induction columns as [|col rest IH]; intros tr.
  - simpl. unfold ret. now rewrite app_nil_r.
  - unfold print_columns in *. cbn [for_each forallb listed].
    unfold bind at 1. unfold bind at 1.
    destruct (wide col) eqn:Hw.
    + rewrite (column_line_wide col _ Hw). cbn [print emit fst snd andb].
      rewrite IH. cbn [listing map].
      destruct (forallb wide rest); rewrite <- app_assoc; reflexivity.
    + rewrite (column_line_narrow col _ Hw). cbn [andb listing map].
      now rewrite app_nil_r.
Qed.

Lemma run_not_found (w w' : W) :
  reaches_verification d w [] w' ->
  run d w = {| exit_code := 1; trace := not_found_trace; final_world := w' |}.
Proof.
  intros (w1 & w2 & w3 & w4 & w5 & H1 & H2 & H3 & H4 & H5 & H6).
  unfold_script. along H1. along H2. along H3. along H4. along H5. along H6.
  reflexivity.
Qed.

Lemma run_success (w w8 w9 w10 : W) (result columns : list row) :
  reaches_listing d w result columns w8 ->
  forallb wide columns = true ->
  cursor_close d w8 = (Returns tt, w9) ->
  connection_close d w9 = (Returns tt, w10) ->
  run d w = {| exit_code := 0; trace := success_trace result columns;
               final_world := w10 |}.
Proof.
  intros (w6 & w7 & (w1 & w2 & w3 & w4 & w5 & H1 & H2 & H3 & H4 & H5 & H6)
          & Hne & H7 & H8) Hwide H9 H10.
  unfold_script. along H1. along H2. along H3. along H4. along H5. along H6.
  destruct result as [|r0 result']; [congruence|]. cbn [fst snd app].
  along H7. along H8. rewrite print_columns_spec, Hwide.
  cbn [fst snd app]. along H9. along H10.
  repeat rewrite <- app_assoc. reflexivity.
Qed.

Lemma before_call_listing (k : nat) (columns : list row) (tr : list event) :
  before_call k (listing columns ++ tr) = listing columns ++ before_call k tr.
Proof.
  induction columns as [|col rest IH]; simpl; [reflexivity|]. now rewrite IH.
Qed.

(** A handler report for a call before the listing. *)
Ltac failed_at k e :=
  destruct e;
  exact (shape_call_failed k _ [] [] ltac:(lia)).

(** Every run has one of the four shapes. *)
Lemma run_total (w : W) : run_shape (exit_code (run d w)) (trace (run d w)).
Proof.
  unfold_script.
  branch (connect d connection_params w) w1 e E1; [|failed_at 0 e].
  branch (cursor d w1) w2 e E2; [|failed_at 1 e].
  branch (execute d create_table_sql w2) w3 e E3; [|failed_at 2 e].
  branch (commit d w3) w4 e E4; [|failed_at 3 e].
  branch (execute d show_tables_sql w4) w5 e E5; [|failed_at 4 e].
  branch_rows (fetchall d w5) result w6 e E6; [|failed_at 5 e].
  destruct result as [|r0 result']; cbn [fst snd app exit_status exit_code trace].
  { exact shape_not_found. }
  set (result := r0 :: result') in *.
  assert (Hne : result <> []) by (subst result; discriminate).
  branch (execute d describe_sql w6) w7 e E7.
  2:{ destruct e; exact (shape_call_failed 6 _ result [] ltac:(lia)). }
  branch_rows (fetchall d w7) columns w8 e E8.
  2:{ destruct e; exact (shape_call_failed 7 _ result [] ltac:(lia)). }
  rewrite print_columns_spec. destruct (forallb wide columns) eqn:Hwide;
    cbn [fst snd app find_handler class_of issubclass exit_status exit_code trace].
  2:{ exact (shape_index_error result columns Hne Hwide). }
  branch (cursor_close d w8) w9 e E9.
  2:{ pose proof (shape_call_failed 8 e result columns ltac:(lia)) as S.
      unfold success_trace in S. cbn [upto_listing app before_call] in S.
      rewrite before_call_listing in S. cbn [closing before_call] in S.
      rewrite app_nil_r in S.
      destruct e;
        cbn [fst snd app find_handler class_of issubclass exit_status exit_code trace];
        repeat rewrite <- app_assoc; exact S. }
  branch (connection_close d w9) w10 e E10.
  2:{ pose proof (shape_call_failed 9 e result columns ltac:(lia)) as S.
      unfold success_trace in S. cbn [upto_listing app before_call] in S.
      rewrite before_call_listing in S. cbn [closing before_call] in S.
      destruct e;
        cbn [fst snd app find_handler class_of issubclass exit_status exit_code trace];
        repeat rewrite <- app_assoc in *; exact S. }
  repeat rewrite <- app_assoc.
  exact (shape_success result columns Hne Hwide).
Qed.

(** A run that exits with 0 went through every step. *)
Lemma run_exit_0 (w : W) : exit_code (run d w) = 0%Z -> all_steps_succeed d w.
Proof.
  unfold_script.
  branch (connect d connection_params w) w1 e E1; [|destruct e; discriminate].
  branch (cursor d w1) w2 e E2; [|destruct e; discriminate].
  branch (execute d create_table_sql w2) w3 e E3; [|destruct e; discriminate].
  branch (commit d w3) w4 e E4; [|destruct e; discriminate].
  branch (execute d show_tables_sql w4) w5 e E5; [|destruct e; discriminate].
  branch_rows (fetchall d w5) result w6 e E6; [|destruct e; discriminate].
  destruct result as [|r0 result']; cbn [fst snd app exit_status exit_code trace];
    [discriminate|].
  branch (execute d describe_sql w6) w7 e E7; [|destruct e; discriminate].
  branch_rows (fetchall d w7) columns w8 e E8; [|destruct e; discriminate].
  rewrite print_columns_spec. destruct (forallb wide columns) eqn:Hwide;
    cbn [fst snd app find_handler class_of issubclass exit_status exit_code trace];
    [|discriminate].
  branch (cursor_close d w8) w9 e E9; [|destruct e; discriminate].
  branch (connection_close d w9) w10 e E10; [|destruct e; discriminate].
  intros _. exists (r0 :: result'), columns, w8, w9, w10.
  repeat split; try assumption.
  exists w6, w7. repeat split; try assumption; try discriminate.
  now exists w1, w2, w3, w4, w5.
Qed.

End Execution.

(** ** Facts about traces *)

Lemma calls_of_app (tr1 tr2 : list event) :
  calls_of (tr1 ++ tr2) = calls_of tr1 ++ calls_of tr2.
Proof.
  induction tr1 as [|[c r|s] tr1 IH]; simpl; [reflexivity| |assumption].
  now rewrite IH.
Qed.

Lemma calls_of_listing (columns : list row) : calls_of (listing columns) = [].
Proof. induction columns; simpl; auto. Qed.

Lemma calls_of_before_call (k : nat) (tr : list event) :
  calls_of (before_call k tr) = firstn k (calls_of tr).
Proof.
  revert k. induction tr as [|[c r|s] tr IH]; intros k; simpl.
  - now destruct k.
  - destruct k; simpl; [reflexivity|]. now rewrite IH.
  - apply IH.
Qed.

Lemma calls_of_success (result columns : list row) :
  calls_of (success_trace result columns) = program_calls.
Proof.
  unfold success_trace. rewrite !calls_of_app, calls_of_listing. reflexivity.
Qed.

Lemma in_calls_of (c : call) (r : ending) (tr : list event) :
  In (Call c r) tr -> In c (calls_of tr).
Proof.
  induction tr as [|[c' r'|s] tr IH]; simpl; [tauto| |].
  - intros [H|H]; [left; congruence | right; auto].
  - intros [H|H]; [discriminate | auto].
Qed.

Lemma in_before_call (x : event) (k : nat) (tr : list event) :
  In x (before_call k tr) -> In x tr.
Proof.
  revert k. induction tr as [|[c r|s] tr IH]; intros k; simpl; [tauto| |].
  - destruct k; simpl; [tauto|]. intros [H|H]; [now left | right; eauto].
  - intros [H|H]; [now left | right; eauto].
Qed.

Lemma in_listing (x : event) (columns : list row) :
  In x (listing columns) -> exists col, x = Print (listing_line col).
Proof.
  unfold listing. rewrite in_map_iff. intros (col & <- & _). now exists col.
Qed.

(** No call of a fully successful trace failed. *)
Lemma success_trace_no_failure (result columns : list row) (c : call) (e : exception) :
  ~ In (Call c (Failed e)) (success_trace result columns).
Proof.
  unfold success_trace. rewrite !in_app_iff. intros [H|[H|H]].
  - simpl in H. repeat (destruct H as [H|H]; [discriminate|]). exact H.
  - apply in_listing in H. destruct H as (col & H). discriminate.
  - simpl in H. repeat (destruct H as [H|H]; [discriminate|]). exact H.
Qed.

Lemma firstn_snoc_nth {A} (k : nat) (l : list A) (a : A) :
  k < length l -> firstn k l ++ [nth k l a] = firstn (S k) l.
Proof.
  revert k. induction l as [|x l IH]; intros k Hk; simpl in Hk; [lia|].
  destruct k; [reflexivity|]. simpl. f_equal. apply IH. lia.
Qed.

(** The calls of a run that ended with the report of a failed call. *)
Lemma calls_of_failed (k : nat) (e : exception) (result columns : list row) :
  k < 10 ->
  calls_of (before_call k (success_trace result columns)
              ++ [ Call (nth k program_calls Commit) (Failed e);
                   Print (handler_line e) ])
  = firstn (S k) program_calls.
Proof.
  intros Hk. rewrite calls_of_app, calls_of_before_call, calls_of_success.
  cbn [calls_of]. exact (firstn_snoc_nth k program_calls Commit Hk).
Qed.

Lemma calls_of_index_error (result columns : list row) :
  calls_of (upto_listing result columns ++ listing (listed columns)
              ++ [ Print "💥 Error: tuple index out of range"%string ])
  = firstn 8 program_calls.
Proof. rewrite !calls_of_app, calls_of_listing. reflexivity. Qed.

(** ** The trace records what the driver was asked *)

Section Faithful.

Context {W : Type}.
Variable d : driver W.

Lemma call_events_app (tr1 tr2 : list event) :
  call_events (tr1 ++ tr2) = call_events tr1 ++ call_events tr2.
Proof.
  induction tr1 as [|[c r|s] tr1 IH]; simpl; [reflexivity| |assumption].
  now rewrite IH.
Qed.

Lemma drive_app (cs1 cs2 : list call) (w : W) :
  drive d (cs1 ++ cs2) w
  = (fst (drive d cs1 w) ++ fst (drive d cs2 (snd (drive d cs1 w))),
     snd (drive d cs2 (snd (drive d cs1 w)))).
Proof.
  revert w. induction cs1 as [|c cs1 IH]; intros w.
  - cbn. now destruct (drive d cs2 w).
  - cbn [app drive]. destruct (apply_call d c w) as [r w1]. rewrite IH.
    destruct (drive d cs1 w1) as [evs w2]. reflexivity.
Qed.

Lemma faithful_ret {A : Type} (a : A) : faithful d (ret a).
Proof. intros w tr. exists []. cbn. now rewrite app_nil_r. Qed.

Lemma faithful_print (s : string) : faithful d (print s).
Proof. intros w tr. exists [Print s]. cbn. split; reflexivity. Qed.

Lemma faithful_sys_exit {A : Type} (code : Z) : faithful d (@sys_exit W A code).
Proof. intros w tr. exists []. cbn. now rewrite app_nil_r. Qed.

Lemma faithful_raise_exc {A : Type} (e : exception) : faithful d (@raise_exc W A e).
Proof. intros w tr. exists []. cbn. now rewrite app_nil_r. Qed.

(** A logged call is faithful when it applies the driver's function for
    that call. *)
Lemma faithful_call_unit (c : call) (f : W -> reply unit * W) :
  (forall w, apply_call d c w = (ending_of (fst (f w)), snd (f w))) ->
  faithful d (call_unit c f).
Proof.
  intros H w tr. unfold call_unit. cbn [fst snd]. specialize (H w).
  destruct (f w) as [[u|e] w'];
    [exists [Call c Done] | exists [Call c (Failed e)]];
    cbn [fst snd calls_of call_events drive]; rewrite H; split; reflexivity.
Qed.

Lemma faithful_do_connect (p : conn_params) : faithful d (do_connect d p).
Proof. apply faithful_call_unit. reflexivity. Qed.

Lemma faithful_do_cursor : faithful d (do_cursor d).
Proof. apply faithful_call_unit. reflexivity. Qed.

Lemma faithful_do_execute (sql : string) : faithful d (do_execute d sql).
Proof. apply faithful_call_unit. reflexivity. Qed.

Lemma faithful_do_commit : faithful d (do_commit d).
Proof. apply faithful_call_unit. reflexivity. Qed.

Lemma faithful_do_cursor_close : faithful d (do_cursor_close d).
Proof. apply faithful_call_unit. reflexivity. Qed.

Lemma faithful_do_connection_close : faithful d (do_connection_close d).
Proof. apply faithful_call_unit. reflexivity. Qed.

Lemma faithful_do_fetchall : faithful d (do_fetchall d).
Proof.
  intros w tr. unfold do_fetchall. cbn [fst snd].
  destruct (fetchall d w) as [[rs|e] w'] eqn:E;
    [exists [Call Fetchall (Rows rs)] | exists [Call Fetchall (Failed e)]];
    cbn [fst snd calls_of call_events drive apply_call]; rewrite E; split; reflexivity.
Qed.

Lemma faithful_bind {A B : Type} (m : @M W A) (k : A -> @M W B) :
  faithful d m -> (forall a, faithful d (k a)) -> faithful d (bind m k).
Proof.
  intros Hm Hk w tr. unfold bind. destruct (Hm w tr) as (evs & Htr & Hd).
  destruct (m (w, tr)) as [[a|r] [w1 tr1]]; cbn [fst snd] in *.
  - subst tr1. destruct (Hk a w1 (tr ++ evs)) as (evs2 & Htr2 & Hd2).
    exists (evs ++ evs2). split.
    + now rewrite Htr2, app_assoc.
    + rewrite calls_of_app, drive_app, Hd. cbn [fst snd]. rewrite Hd2.
      cbn [fst snd]. now rewrite call_events_app.
  - exists evs. split; assumption.
Qed.

Lemma faithful_index (col : row) (i : nat) : faithful d (index col i).
Proof.
  unfold index. destruct (nth_error col i);
    [apply faithful_ret | apply faithful_raise_exc].
Qed.

Lemma faithful_for_each {A : Type} (xs : list A) (body : A -> @M W unit) :
  (forall x, faithful d (body x)) -> faithful d (for_each xs body).
Proof.
  intros Hb. induction xs as [|x xs IH]; cbn [for_each].
  - apply faithful_ret.
  - apply faithful_bind; [apply Hb | intros _; exact IH].
Qed.

Lemma faithful_try_except {A : Type} (body : @M W A)
    (handlers : list (exn_class * (exception -> @M W A))) :
  faithful d body ->
  Forall (fun ch => forall e, faithful d (snd ch e)) handlers ->
  faithful d (try_except body handlers).
Proof.
  intros Hb Hh w tr. unfold try_except. destruct (Hb w tr) as (evs & Htr & Hd).
  destruct (body (w, tr)) as [[a|r] [w1 tr1]]; cbn [fst snd] in *.
  - exists evs. split; assumption.
  - destruct (find_handler r handlers) as [h|] eqn:Ef;
      [destruct r as [code|e]|]; try (exists evs; split; assumption).
    assert (Hf : forall e', faithful d (h e')).
    { clear -Hh Ef. induction handlers as [|[cls h'] rest IH]; [discriminate|].
      cbn [find_handler] in Ef. inversion Hh as [|? ? Hhead Hrest]; subst.
      destruct (issubclass (class_of (Exc e)) cls).
      - injection Ef as <-. exact Hhead.
      - now apply IH. }
    subst tr1. destruct (Hf e w1 (tr ++ evs)) as (evs2 & Htr2 & Hd2).
    exists (evs ++ evs2). split.
    + now rewrite Htr2, app_assoc.
    + rewrite calls_of_app, drive_app, Hd. cbn [fst snd]. rewrite Hd2.
      cbn [fst snd]. now rewrite call_events_app.
Qed.

(** Every call event of the script comes from the driver, and the script
    moves the world by driver calls only. *)
Lemma faithful_script : faithful d (script d).
Proof.
  unfold script, try_body, verify, print_columns, column_line,
    on_mysql_error, on_exception.
  repeat first
    [ apply faithful_bind
    | apply faithful_try_except
    | apply faithful_for_each
    | apply faithful_print
    | apply faithful_ret
    | apply faithful_sys_exit
    | apply faithful_index
    | apply faithful_do_connect
    | apply faithful_do_cursor
    | apply faithful_do_execute
    | apply faithful_do_commit
    | apply faithful_do_fetchall
    | apply faithful_do_cursor_close
    | apply faithful_do_connection_close
    | apply Forall_cons
    | apply Forall_nil
    | intros [|? ?]
    | intro ].
Qed.

(** The driver, asked the calls of the trace in their order from the
    initial world, gives the answers the trace records and ends in the
    world the run ends in. *)
Lemma run_drives_the_driver (w : W) :
  drive d (calls_of (trace (run d w))) w
  = (call_events (trace (run d w)), final_world (run d w)).
Proof.
  destruct (faithful_script w []) as (evs & Htr & Hd).
  unfold run. destruct (script d (w, [])) as [o [w' tr]].
  cbn [fst snd app trace final_world] in *. subst tr. exact Hd.
Qed.

End Faithful.

(** ** The exit code *)

(** C1, as the code has it: every run ends with exit code 0 or 1; the
    code is 0 exactly when every step of the [try] body succeeds (the
    connection, the cursor, the DDL, the commit, the catalog query
    finding the table, the DESCRIBE listing, and closing the cursor and
    the connection), and 1 otherwise. *)
Theorem exit_code_0_iff_all_steps_succeed {W : Type} (d : driver W) (w : W) :
  (exit_code (run d w) = 0%Z \/ exit_code (run d w) = 1%Z) /\
  (exit_code (run d w) = 0%Z <-> all_steps_succeed d w) /\
  (exit_code (run d w) = 1%Z <-> ~ all_steps_succeed d w).
Proof.
  assert (H01 : exit_code (run d w) = 0%Z \/ exit_code (run d w) = 1%Z).
  { destruct (run_total d w); auto. }
  assert (Hiff : exit_code (run d w) = 0%Z <-> all_steps_succeed d w).
  { split; [apply run_exit_0|].
    intros (result & columns & w8 & w9 & w10 & Hl & Hw & H9 & H10).
    now rewrite (run_success d w w8 w9 w10 result columns Hl Hw H9 H10). }
  split; [exact H01|]. split; [exact Hiff|]. split.
  - intros H1 Hall. apply Hiff in Hall. rewrite Hall in H1. discriminate.
  - intros Hn. destruct H01 as [H0|H1]; [|exact H1]. now apply Hiff in H0.
Qed.

Lemma playback_ok_all_steps : all_steps_succeed playback answers_ok.
Proof.
  exists [[VStr "access_logs"%string]], describe_rows,
    [AOk; AOk], [AOk], (@nil answer).
  repeat split.
  exists [AOk; ARows describe_rows; AOk; AOk], [ARows describe_rows; AOk; AOk].
  repeat split; [|discriminate].
  repeat eexists.
Qed.

Lemma exit_code_0_iff_all_steps_succeed_witness :
  exit_code (run playback answers_ok) = 0%Z /\
  exit_code (run playback answers_close_fails) = 1%Z.
Proof.
  split.
  - apply (exit_code_0_iff_all_steps_succeed playback answers_ok).
    exact playback_ok_all_steps.
  - destruct (proj1 (exit_code_0_iff_all_steps_succeed playback answers_close_fails))
      as [H|H]; [discriminate H | exact H].
Defined.

(** C1, as stated, fails: here the connection, the DDL, the commit and
    the whole post-creation verification succeed, and the exit code is 1
    because [connection.close()] raises. *)
Lemma named_steps_succeed_but_exit_1 :
  named_steps_succeed playback answers_close_fails /\
  exit_code (run playback answers_close_fails) = 1%Z.
Proof.
  split; [|reflexivity].
  exists [[VStr "access_logs"%string]], describe_rows,
    [AOk; AErr (MySQLError "2055: Lost connection to MySQL server")].
  split; [|reflexivity].
  exists [AOk; ARows describe_rows; AOk;
          AErr (MySQLError "2055: Lost connection to MySQL server")],
         [ARows describe_rows; AOk;
          AErr (MySQLError "2055: Lost connection to MySQL server")].
  repeat split; [|discriminate].
  repeat eexists.
Qed.

(** ** The verification step *)

(** C2: when lines 13-54 raise nothing and the catalog query returns an
    empty result, the script prints its error line, makes no further
    driver call, and the process exits with status 1. *)
Theorem empty_verification_exits_1 {W : Type} (d : driver W) (w w' : W) :
  reaches_verification d w [] w' ->
  exit_code (run d w) = 1%Z /\
  trace (run d w) = not_found_trace /\
  last (trace (run d w)) (Print "") = Print "❌ ERROR: Table not found after creation!".
Proof.
  intros H. rewrite (run_not_found d w w' H). repeat split.
Qed.

Lemma empty_verification_exits_1_witness :
  exit_code (run playback answers_not_found) = 1%Z /\
  trace (run playback answers_not_found) = not_found_trace /\
  last (trace (run playback answers_not_found)) (Print "")
    = Print "❌ ERROR: Table not found after creation!".
Proof.
  apply (empty_verification_exits_1 playback answers_not_found []).
  exists [AOk; AOk; AOk; AOk; ARows []], [AOk; AOk; AOk; ARows []],
    [AOk; AOk; ARows []], [AOk; ARows []], [ARows []].
  repeat split.
Defined.

(** ** The sequence of steps *)

(** C4: in every run the driver calls made are an initial segment of the
    program's ten calls (connect, cursor, DDL, commit, catalog query and
    fetch, DESCRIBE and fetch, cursor close, connection close), so no
    call is made twice, out of order, or again after a failure.  The
    calls of the trace are calls made to the driver: asked those calls
    in that order from the initial world, the driver gives the answers
    the trace records and is left in the world the run ends in.  A run
    that exits with 0 makes all ten, with the column listing printed
    between the DESCRIBE fetch and the two [close] calls, and leaves the
    driver in the world its [connection_close] returned. *)
Theorem calls_follow_program_order {W : Type} (d : driver W) (w : W) :
  (exists rest, program_calls = calls_of (trace (run d w)) ++ rest) /\
  drive d (calls_of (trace (run d w))) w
  = (call_events (trace (run d w)), final_world (run d w)) /\
  (exit_code (run d w) = 0%Z ->
   calls_of (trace (run d w)) = program_calls /\
   drive d program_calls w
   = (call_events (trace (run d w)), final_world (run d w)) /\
   exists result columns,
     trace (run d w) = upto_listing result columns ++ listing columns ++ closing).
Proof.
  split; [|split; [apply run_drives_the_driver|]].
  - destruct (run_total d w) as [result columns Hne Hw| |k e result columns Hk
                                |result columns Hne Hw].
    + exists []. now rewrite calls_of_success, app_nil_r.
    + eexists. reflexivity.
    + rewrite (calls_of_failed k e result columns Hk).
      exists (skipn (S k) program_calls). symmetry. apply firstn_skipn.
    + rewrite calls_of_index_error. exists (skipn 8 program_calls). reflexivity.
  - intros H0. pose proof (run_drives_the_driver d w) as Hd.
    destruct (run_total d w) as [result columns Hne Hw| | |]; try discriminate.
    rewrite calls_of_success in Hd.
    split; [apply calls_of_success|]. split; [exact Hd|].
    now exists result, columns.
Qed.

Lemma calls_follow_program_order_witness :
  calls_of (trace (run playback answers_ok)) = program_calls /\
  drive playback program_calls answers_ok
  = (call_events (trace (run playback answers_ok)), []).
Proof.
  destruct (proj2 (proj2 (calls_follow_program_order playback answers_ok)) eq_refl)
    as (Hcalls & Hdrive & _).
  split; [exact Hcalls | exact Hdrive].
Defined.

(** ** The two handlers *)

(** C5: whenever a driver call raises, the process exits with 1 and the
    last line printed is the report of the handler for the class of the
    exception: [❌ MySQL Error: ...] for a [mysql.connector.Error],
    [💥 Error: ...] for any other exception.  The two reports never
    coincide, and the same holds for whatever [Exception] the [try] body
    raises: the matching handler prints its report and calls
    [sys.exit(1)].  In particular, when [connect] rejects the credentials with
    a [mysql.connector.Error], the run consists of the connecting line,
    the failed call and the database-specific report. *)
Theorem handlers_distinguish_error_classes {W : Type} (d : driver W) (w : W) :
  (forall c msg,
      In (Call c (Failed (MySQLError msg))) (trace (run d w)) ->
      exit_code (run d w) = 1%Z /\
      last (trace (run d w)) (Print "") = Print ("❌ MySQL Error: " ++ msg)%string) /\
  (forall c msg,
      In (Call c (Failed (OtherException msg))) (trace (run d w)) ->
      exit_code (run d w) = 1%Z /\
      last (trace (run d w)) (Print "") = Print ("💥 Error: " ++ msg)%string) /\
  (forall msg1 msg2,
      ("❌ MySQL Error: " ++ msg1)%string <> ("💥 Error: " ++ msg2)%string) /\
  (forall (body : @M W unit) (st st' : @state W) (e : exception),
      body st = (Raise (Exc e), st') ->
      try_except body
        [ (c_mysql_connector_Error, on_mysql_error); (cException, on_exception) ] st
      = (Raise (SystemExit 1),
         (fst st',
          snd st' ++ [ Print (match e with
                              | MySQLError msg => "❌ MySQL Error: " ++ msg
                              | OtherException msg => "💥 Error: " ++ msg
                              end)%string ]))) /\
  (forall msg w',
      connect d connection_params w = (Raises (MySQLError msg), w') ->
      run d w =
        {| exit_code := 1;
           trace := [ Print "🔧 Connecting to production database...";
                      Call (Connect connection_params) (Failed (MySQLError msg));
                      Print ("❌ MySQL Error: " ++ msg)%string ];
           final_world := w' |}).
Proof.
  assert (Hrep : forall c e,
             In (Call c (Failed e)) (trace (run d w)) ->
             exit_code (run d w) = 1%Z /\
             last (trace (run d w)) (Print "") = Print (handler_line e)).
  { intros c e Hin.
    destruct (run_total d w) as [result columns Hne Hw| |k e' result columns Hk
                                |result columns Hne Hw].
    - now apply success_trace_no_failure in Hin.
    - simpl in Hin. repeat (destruct Hin as [Hin|Hin]; [discriminate|]). tauto.
    - split; [reflexivity|].
      apply in_app_iff in Hin. destruct Hin as [Hin|Hin].
      + apply in_before_call in Hin. now apply success_trace_no_failure in Hin.
      + destruct Hin as [Hin|[Hin|[]]]; [|discriminate].
        injection Hin as _ ->.
        change [Call (nth k program_calls Commit) (Failed e); Print (handler_line e)]
          with ([Call (nth k program_calls Commit) (Failed e)]
                  ++ [Print (handler_line e)]).
        rewrite app_assoc. apply last_last.
    - rewrite !in_app_iff in Hin. destruct Hin as [Hin|[Hin|Hin]].
      + simpl in Hin. repeat (destruct Hin as [Hin|Hin]; [discriminate|]). tauto.
      + apply in_listing in Hin. destruct Hin as (col & Hin). discriminate.
      + destruct Hin as [Hin|[]]. discriminate. }
  split; [|split; [|split; [|split]]].
  - intros c msg Hin. exact (Hrep c _ Hin).
  - intros c msg Hin. exact (Hrep c _ Hin).
  - intros msg1 msg2. discriminate.
  - intros body st st' e H. unfold try_except. rewrite H. now destruct e.
  - intros msg w' H. unfold_script. along H. reflexivity.
Qed.

Lemma handlers_distinguish_error_classes_witness :
  exit_code (run playback answers_access_denied) = 1%Z /\
  last (trace (run playback answers_access_denied)) (Print "")
    = Print "❌ MySQL Error: 1045 (28000): Access denied for user 'tshlaadmin'".
Proof.
  apply (proj1 (handlers_distinguish_error_classes playback answers_access_denied))
    with (c := Connect connection_params).
  simpl. right. left. reflexivity.
Defined.

(** ** The column listing *)

(** C6: once the DESCRIBE query has returned [columns], the lines printed
    after the heading are one per row, in order: the row's name, its
    type, and [NOT NULL] when its null flag is the string ['NO'], [NULL]
    for any other flag.  Every row is listed when every row has its
    first three fields, as the rows of DESCRIBE do. *)
Theorem listing_annotates_by_null_flag {W : Type} (d : driver W) (w w8 : W)
    (result columns : list row) :
  reaches_listing d w result columns w8 ->
  (exists rest,
      trace (run d w) = upto_listing result columns
                          ++ map (fun col => Print (listing_line col)) (listed columns)
                          ++ rest) /\
  (forallb wide columns = true -> listed columns = columns) /\
  (forall name type flag others,
      (flag = VStr "NO" ->
       listing_line (name :: type :: flag :: others)
       = ("  - " ++ str_value name ++ ": " ++ str_value type ++ " NOT NULL")%string) /\
      (flag <> VStr "NO" ->
       listing_line (name :: type :: flag :: others)
       = ("  - " ++ str_value name ++ ": " ++ str_value type ++ " NULL")%string)).
Proof.
  intros Hreach. split; [|split].
  - destruct Hreach as (w6 & w7 & (w1 & w2 & w3 & w4 & w5
                        & H1 & H2 & H3 & H4 & H5 & H6) & Hne & H7 & H8).
    unfold_script. along H1. along H2. along H3. along H4. along H5. along H6.
    destruct result as [|r0 result']; [congruence|]. cbn [fst snd app].
    along H7. along H8. rewrite print_columns_spec.
    destruct (forallb wide columns) eqn:Hw; cbn [fst snd app].
    + assert (Hl : listed columns = columns).
      { clear -Hw. induction columns as [|col rest IH]; [reflexivity|].
        simpl in *. apply andb_prop in Hw. destruct Hw as [-> Hw].
        now rewrite IH. }
      rewrite Hl.
      branch (cursor_close d w8) w9 e E9;
        [branch (connection_close d w9) w10 e' E10|];
        try destruct e; try destruct e';
        cbn [fst snd app find_handler class_of issubclass exit_status trace];
        repeat rewrite <- app_assoc; unfold upto_listing, listing; cbn [app];
        eexists; reflexivity.
    + unfold upto_listing, listing; cbn [app trace]. eexists. reflexivity.
  - clear. induction columns as [|col rest IH]; [reflexivity|].
    simpl. intros Hw. apply andb_prop in Hw. destruct Hw as [-> Hw].
    now rewrite IH.
  - intros name type flag others. unfold listing_line. cbn [nth]. split.
    + intros ->. reflexivity.
    + intros Hflag. destruct flag as [s| | |]; try reflexivity.
      cbn [eq_str]. destruct (String.eqb_spec s "NO") as [->|Hs]; [congruence|].
      reflexivity.
Qed.

Lemma listing_annotates_by_null_flag_witness :
  exists rest,
    trace (run playback answers_ok)
    = upto_listing [[VStr "access_logs"]] describe_rows
        ++ [ Print "  - id: int NOT NULL";
             Print "  - user_id: int NOT NULL";
             Print "  - access_type: varchar(50) NOT NULL";
             Print "  - payment_amount_cents: int NULL";
             Print "  - ip_address: varchar(45) NULL";
             Print "  - user_agent: text NULL";
             Print "  - created_at: timestamp NULL" ]
        ++ rest.
Proof.
  apply (proj1 (listing_annotates_by_null_flag playback answers_ok [AOk; AOk]
                  [[VStr "access_logs"%string]] describe_rows
                  ltac:(exists [AOk; ARows describe_rows; AOk; AOk],
                               [ARows describe_rows; AOk; AOk];
                        repeat split; [repeat eexists | discriminate]))).
Defined.

(** ** Releasing the cursor and the connection *)

(** C8: when the verification finds the table and no step raises, the
    process exits with 0; and a run that exits with 0 has gone through
    every step, has then called the driver's [cursor_close] and, in the
    world that left, the driver's [connection_close], both returning,
    before its last line is printed and the process exits: the world the
    run ends in is the one [connection_close] returned. *)
Theorem success_closes_cursor_and_connection {W : Type} (d : driver W) (w : W) :
  (all_steps_succeed d w -> exit_code (run d w) = 0%Z) /\
  (exit_code (run d w) = 0%Z ->
   exists result columns w8 w9 w10,
     reaches_listing d w result columns w8 /\
     forallb wide columns = true /\
     cursor_close d w8 = (Returns tt, w9) /\
     connection_close d w9 = (Returns tt, w10) /\
     final_world (run d w) = w10 /\
     trace (run d w)
     = (upto_listing result columns ++ listing columns)
         ++ [ Call CursorClose Done;
              Call ConnectionClose Done;
              Print (nl ++ "✨ Done! The access_logs table is now ready.")%string ]).
Proof.
  split.
  - intros (result & columns & w8 & w9 & w10 & Hl & Hw & H9 & H10).
    now rewrite (run_success d w w8 w9 w10 result columns Hl Hw H9 H10).
  - intros H0. destruct (run_exit_0 d w H0)
      as (result & columns & w8 & w9 & w10 & Hl & Hw & H9 & H10).
    exists result, columns, w8, w9, w10.
    rewrite (run_success d w w8 w9 w10 result columns Hl Hw H9 H10).
    cbn [final_world trace]. unfold success_trace, closing.
    rewrite app_assoc. repeat split; assumption.
Qed.

Lemma success_closes_cursor_and_connection_witness :
  exit_code (run playback answers_ok) = 0%Z /\
  exists result columns w8 w9 w10,
    reaches_listing playback answers_ok result columns w8 /\
    forallb wide columns = true /\
    cursor_close playback w8 = (Returns tt, w9) /\
    connection_close playback w9 = (Returns tt, w10) /\
    final_world (run playback answers_ok) = w10 /\
    trace (run playback answers_ok)
    = (upto_listing result columns ++ listing columns)
        ++ [ Call CursorClose Done;
             Call ConnectionClose Done;
             Print (nl ++ "✨ Done! The access_logs table is now ready.")%string ].
Proof.
  destruct (success_closes_cursor_and_connection playback answers_ok) as (Hexit & Hclose).
  assert (H0 : exit_code (run playback answers_ok) = 0%Z)
    by exact (Hexit playback_ok_all_steps).
  split; [exact H0 | exact (Hclose H0)].
Defined.

(** ** [sys.exit] inside the [try] *)

(** C9: [SystemExit] is not a subclass of [Exception] (nor of
    [mysql.connector.Error]), so the two [except] clauses of the script
    let any [SystemExit] raised by the [try] body through unchanged.  On
    the verification-failure path the body raises [SystemExit(1)], no
    handler runs (nothing is printed after the error line) and the
    process exits with 1; on the success path the body raises
    [SystemExit(0)], no handler runs and the process exits with 0. *)
Theorem system_exit_passes_the_handlers {W : Type} (d : driver W) :
  issubclass cSystemExit cException = false /\
  issubclass cSystemExit c_mysql_connector_Error = false /\
  (forall (body : @M W unit) (st st' : @state W) (code : Z),
      body st = (Raise (SystemExit code), st') ->
      try_except body
        [ (c_mysql_connector_Error, on_mysql_error); (cException, on_exception) ] st
      = (Raise (SystemExit code), st')) /\
  (forall w w',
      reaches_verification d w [] w' ->
      try_body d (w, [Print "🔧 Connecting to production database..."])
      = (Raise (SystemExit 1), (w', not_found_trace)) /\
      script d (w, []) = (Raise (SystemExit 1), (w', not_found_trace)) /\
      exit_code (run d w) = 1%Z) /\
  (forall w,
      all_steps_succeed d w ->
      exists result columns w',
        try_body d (w, [Print "🔧 Connecting to production database..."])
        = (Raise (SystemExit 0), (w', success_trace result columns)) /\
        script d (w, []) = (Raise (SystemExit 0), (w', success_trace result columns)) /\
        exit_code (run d w) = 0%Z).
Proof.
  split; [reflexivity|]. split; [reflexivity|]. split; [|split].
  - intros body st st' code H. unfold try_except. now rewrite H.
  - intros w w' (w1 & w2 & w3 & w4 & w5 & H1 & H2 & H3 & H4 & H5 & H6).
    repeat split; unfold_script; along H1; along H2; along H3; along H4;
      along H5; along H6; reflexivity.
  - intros w (result & columns & w8 & w9 & w10 & Hl & Hwide & H9 & H10).
    destruct Hl as (w6 & w7 & (w1 & w2 & w3 & w4 & w5 & H1 & H2 & H3 & H4 & H5 & H6)
                    & Hne & H7 & H8).
    exists result, columns, w10.
    destruct result as [|r0 result']; [congruence|].
    repeat split; unfold_script; along H1; along H2; along H3; along H4;
      along H5; along H6; along H7; along H8; rewrite print_columns_spec, Hwide;
      cbn [fst snd app]; along H9; along H10;
      repeat rewrite <- app_assoc; reflexivity.
Qed.

Lemma system_exit_passes_the_handlers_witness :
  script playback (answers_not_found, []) = (Raise (SystemExit 1), ([], not_found_trace)) /\
  exists result columns w',
    script playback (answers_ok, [])
    = (Raise (SystemExit 0), (w', success_trace result columns)).
Proof.
  destruct (system_exit_passes_the_handlers playback) as (_ & _ & _ & Hfail & Hok).
  split.
  - apply (Hfail answers_not_found []).
    exists [AOk; AOk; AOk; AOk; ARows []], [AOk; AOk; AOk; ARows []],
      [AOk; AOk; ARows []], [AOk; ARows []], [ARows []].
    repeat split.
  - destruct (Hok answers_ok playback_ok_all_steps)
      as (result & columns & w' & _ & Hscript & _).
    now exists result, columns, w'.
Defined.

(** ** Failure paths and the open resources *)

(** C10, as stated, fails: when [connection.close()] raises, the run is a
    failure path through the first handler, and the cursor has been
    closed. *)
Lemma failure_path_with_closed_cursor :
  exit_code (run playback answers_close_fails) = 1%Z /\
  In (Call CursorClose Done) (trace (run playback answers_close_fails)) /\
  last (trace (run playback answers_close_fails)) (Print "")
  = Print "❌ MySQL Error: 2055: Lost connection to MySQL server".
Proof.
  split; [reflexivity|]. split; [|reflexivity].
  vm_compute. do 21 right. left. reflexivity.
Qed.

(** C10, as the code has it: neither handler makes a driver call; a run
    that exits with 1 never has a completed [connection.close()]; and
    unless the failure is that of [cursor.close()] or
    [connection.close()] itself, a run that exits with 1 (the
    verification-failure branch included) has called neither. *)
Theorem failures_before_close_leave_resources_open {W : Type} (d : driver W) (w : W) :
  (forall e st, calls_of (snd (snd (@on_mysql_error W e st))) = calls_of (snd st)) /\
  (forall e st, calls_of (snd (snd (@on_exception W e st))) = calls_of (snd st)) /\
  (exit_code (run d w) = 1%Z ->
   ~ In (Call ConnectionClose Done) (trace (run d w)) /\
   ((forall e, ~ In (Call CursorClose (Failed e)) (trace (run d w))) ->
    (forall e, ~ In (Call ConnectionClose (Failed e)) (trace (run d w))) ->
    forall c r, In (Call c r) (trace (run d w)) -> is_close c = false)).
Proof.
  split; [|split].
  - intros e [w0 tr]. cbn. rewrite calls_of_app. cbn. apply app_nil_r.
  - intros e [w0 tr]. cbn. rewrite calls_of_app. cbn. apply app_nil_r.
  - intros H1.
    destruct (run_total d w) as [result columns Hne Hw| |k e result columns Hk
                                |result columns Hne Hw].
    + discriminate.
    + split.
      * intros Hin. simpl in Hin.
        repeat (destruct Hin as [Hin|Hin]; [discriminate|]). exact Hin.
      * intros _ _ c r Hin. apply in_calls_of in Hin. simpl in Hin.
        repeat (destruct Hin as [<-|Hin]; [reflexivity|]). destruct Hin.
    + split.
      * intros Hin. apply in_app_iff in Hin. destruct Hin as [Hin|Hin].
        -- apply in_calls_of in Hin.
           rewrite calls_of_before_call, calls_of_success in Hin.
           do 10 (destruct k as [|k];
                  [simpl in Hin;
                   repeat (destruct Hin as [Hin|Hin]; [discriminate|]); exact Hin|]).
           lia.
        -- destruct Hin as [Hin|[Hin|[]]]; discriminate.
      * intros Hcur Hconn c r Hin.
        assert (Hk8 : k < 8).
        { destruct (Nat.lt_ge_cases k 8) as [Hlt|Hge]; [exact Hlt|].
          exfalso.
          assert (Hk' : k = 8 \/ k = 9) by lia.
          destruct Hk' as [-> | ->].
          - apply (Hcur e). apply in_app_iff. right. left. reflexivity.
          - apply (Hconn e). apply in_app_iff. right. left. reflexivity. }
        apply in_calls_of in Hin. rewrite (calls_of_failed k e result columns Hk) in Hin.
        do 8 (destruct k as [|k];
              [simpl in Hin;
               repeat (destruct Hin as [<-|Hin]; [reflexivity|]); destruct Hin|]).
        lia.
    + split.
      * intros Hin. apply in_calls_of in Hin. rewrite calls_of_index_error in Hin.
        simpl in Hin. repeat (destruct Hin as [Hin|Hin]; [discriminate|]). exact Hin.
      * intros _ _ c r Hin. apply in_calls_of in Hin.
        rewrite calls_of_index_error in Hin. simpl in Hin.
        repeat (destruct Hin as [<-|Hin]; [reflexivity|]). destruct Hin.
Qed.

Lemma failures_before_close_leave_resources_open_witness :
  exit_code (run playback answers_not_found) = 1%Z /\
  In (Call Commit Done) (trace (run playback answers_not_found)) /\
  is_close Commit = false.
Proof.
  assert (Hin : In (Call Commit Done) (trace (run playback answers_not_found))).
  { simpl. do 6 right. left. reflexivity. }
  split; [reflexivity|]. split; [exact Hin|].
  destruct (failures_before_close_leave_resources_open playback answers_not_found)
    as (_ & _ & H).
  destruct (H eq_refl) as (_ & Hopen).
  apply (Hopen) with (r := Done); [| |exact Hin].
  - intros e H'. simpl in H'.
    repeat (destruct H' as [H'|H']; [discriminate H'|]). exact H'.
  - intros e H'. simpl in H'.
    repeat (destruct H' as [H'|H']; [discriminate H'|]). exact H'.
Defined.

(** ** The script against the modelled server *)

Import MySQL.

(** What the server reads in the DDL of lines 27-44: a conditional
    creation of [access_logs], the seven columns, and one reference to
    [pump_users]. *)
Lemma parse_create_table_sql :
  exists items,
    parse create_table_sql = Some (CreateTable true "access_logs" items) /\
    (forall explicit, columns_of explicit items items = access_logs_columns explicit) /\
    references_of items = ["pump_users"%string].
Proof.
  eexists. split; [vm_compute; reflexivity|]. split; [|reflexivity].
  intros []; reflexivity.
Qed.

Lemma exists_table_lookup (s : server) (name : string) :
  exists_table s name = true <-> exists t, lookup name (tables s) = Some t.
Proof.
  unfold exists_table. destruct (lookup name (tables s)) as [t|].
  - split; [now exists t | reflexivity].
  - split; [discriminate | intros (t & H); discriminate].
Qed.

(** The DDL on a server that has the table: nothing happens. *)
Lemma execute_create_existing (s : server) :
  exists_table s "access_logs" = true ->
  srv_execute create_table_sql s = (Returns tt, with_result s None).
Proof.
  intros H. destruct parse_create_table_sql as (items & Hp & _ & _).
  unfold srv_execute. rewrite Hp. unfold run_statement. now rewrite H.
Qed.

(** The DDL on a server that lacks the table and has [pump_users]. *)
Lemma execute_create_fresh (s : server) :
  exists_table s "access_logs" = false ->
  exists_table s "pump_users" = true ->
  srv_execute create_table_sql s = (Returns tt, with_access_logs s).
Proof.
  intros Ha Hp. destruct parse_create_table_sql as (items & Hparse & Hcols & Hrefs).
  unfold srv_execute. rewrite Hparse. unfold run_statement.
  rewrite Ha, Hrefs. cbn [filter]. rewrite Hp. cbn [negb].
  rewrite Hcols. reflexivity.
Qed.

(** The DDL on a server that lacks both tables. *)
Lemma execute_create_orphan (s : server) :
  exists_table s "access_logs" = false ->
  exists_table s "pump_users" = false ->
  exists msg, srv_execute create_table_sql s = (Raises (MySQLError msg), with_result s None).
Proof.
  intros Ha Hp. destruct parse_create_table_sql as (items & Hparse & Hcols & Hrefs).
  unfold srv_execute. rewrite Hparse. unfold run_statement.
  rewrite Ha, Hrefs. cbn [filter]. rewrite Hp. cbn [negb].
  eexists. reflexivity.
Qed.

Lemma execute_show_tables (s : server) :
  srv_execute show_tables_sql s
  = (Returns tt, with_result s (Some (names_like "access_logs" (tables s)))).
Proof. reflexivity. Qed.

Lemma execute_describe (s : server) (t : table) :
  lookup "access_logs" (tables s) = Some t ->
  srv_execute describe_sql s
  = (Returns tt, with_result s (Some (map describe_row (tbl_columns t)))).
Proof.
  intros H. unfold srv_execute.
  change (parse describe_sql) with (Some (Describe "access_logs")).
  unfold run_statement. now rewrite H.
Qed.

Lemma like_refl_access_logs : like "access_logs" "access_logs" = true.
Proof. reflexivity. Qed.

Lemma names_like_found (pat name : string) (ts : list (string * table)) (t : table) :
  lookup name ts = Some t -> like pat name = true -> names_like pat ts <> [].
Proof.
  induction ts as [|[n t'] ts IH]; simpl; [discriminate|].
  intros Hl Hlike. destruct (String.eqb_spec n name) as [->|Hn].
  - rewrite Hlike. discriminate.
  - destruct (like pat n); [discriminate | now apply IH].
Qed.

Lemma describe_rows_wide (cols : list column) :
  forallb wide (map describe_row cols) = true.
Proof. induction cols; simpl; auto. Qed.

Lemma lookup_app (name : string) (ts1 ts2 : list (string * table)) :
  lookup name (ts1 ++ ts2)
  = match lookup name ts1 with
    | Some t => Some t
    | None => lookup name ts2
    end.
Proof.
  induction ts1 as [|[n t] ts1 IH]; simpl; [reflexivity|].
  destruct (String.eqb n name); [reflexivity | apply IH].
Qed.

(** The whole run on a server that accepts the account and has the
    table. *)
Lemma run_on_existing_table (s : server) (t : table) :
  accepts s connection_params = true ->
  lookup "access_logs" (tables s) = Some t ->
  run mysql s
  = {| exit_code := 0;
       trace := success_trace (names_like "access_logs" (tables s))
                              (map describe_row (tbl_columns t));
       final_world := with_result s None |}.
Proof.
  intros Hacc Ht.
  assert (He : exists_table s "access_logs" = true)
    by (apply exists_table_lookup; now exists t).
  apply (run_success mysql s (with_result s None) (with_result s None)
           (with_result s None)); try reflexivity; [|apply describe_rows_wide].
  exists (with_result s None).
  exists (with_result s (Some (map describe_row (tbl_columns t)))).
  split; [|split; [|split]].
  - exists s, s, (with_result s None), (with_result s None),
      (with_result s (Some (names_like "access_logs" (tables s)))).
    cbn [connect cursor execute commit fetchall mysql].
    unfold srv_connect. rewrite Hacc.
    rewrite (execute_create_existing s He).
    repeat split.
  - exact (names_like_found _ _ _ t Ht like_refl_access_logs).
  - cbn [execute mysql].
    exact (execute_describe (with_result s None) t Ht).
  - reflexivity.
Qed.

(** The whole run on a server that accepts the account, lacks the table
    and has [pump_users]. *)
Lemma run_on_fresh_server (s : server) :
  accepts s connection_params = true ->
  exists_table s "access_logs" = false ->
  exists_table s "pump_users" = true ->
  run mysql s
  = {| exit_code := 0;
       trace := success_trace (names_like "access_logs" (tables (with_access_logs s)))
                  (map describe_row
                     (access_logs_columns (explicit_defaults_for_timestamp s)));
       final_world := with_access_logs s |}.
Proof.
  intros Hacc Ha Hp.
  assert (Ht : lookup "access_logs" (tables (with_access_logs s))
               = Some (Table (access_logs_columns (explicit_defaults_for_timestamp s)) [])).
  { cbn [with_access_logs with_result with_tables tables]. rewrite lookup_app.
    unfold exists_table in Ha. destruct (lookup "access_logs" (tables s)); [discriminate|].
    reflexivity. }
  apply (run_success mysql s (with_access_logs s) (with_access_logs s)
           (with_access_logs s)); try reflexivity.
  exists (with_access_logs s).
  exists (with_result (with_access_logs s)
            (Some (map describe_row
                     (access_logs_columns (explicit_defaults_for_timestamp s))))).
  split; [|split; [|split]].
  - exists s, s, (with_access_logs s), (with_access_logs s),
      (with_result (with_access_logs s)
         (Some (names_like "access_logs" (tables (with_access_logs s))))).
    cbn [connect cursor execute commit fetchall mysql].
    unfold srv_connect. rewrite Hacc.
    rewrite (execute_create_fresh s Ha Hp).
    repeat split.
  - exact (names_like_found _ _ _ _ Ht like_refl_access_logs).
  - cbn [execute mysql].
    exact (execute_describe (with_access_logs s) _ Ht).
  - reflexivity.
Qed.

(** The runs that the server turns down. *)
Lemma run_access_denied (s : server) :
  accepts s connection_params = false -> exit_code (run mysql s) = 1%Z.
Proof.
  intros Hacc. unfold_script. cbn [connect mysql]. unfold srv_connect.
  rewrite Hacc. reflexivity.
Qed.

Lemma run_on_orphan_server (s : server) :
  accepts s connection_params = true ->
  exists_table s "access_logs" = false ->
  exists_table s "pump_users" = false ->
  exit_code (run mysql s) = 1%Z.
Proof.
  intros Hacc Ha Hp. destruct (execute_create_orphan s Ha Hp) as (msg & He).
  unfold_script. cbn [connect cursor execute mysql]. unfold srv_connect, quiet.
  rewrite Hacc. cbn [fst snd app]. rewrite He. reflexivity.
Qed.

(** ** Idempotence *)

(** C3: the DDL is a conditional creation of [access_logs]
    (CREATE TABLE IF NOT EXISTS); executed on a server that has the table
    it returns without changing any table; the whole script run against
    such a server exits with 0 and leaves every table's structure and
    data as they were; and after any run that exited with 0, a second
    run exits with 0 and changes no table. *)
Theorem create_table_is_idempotent :
  (exists items, parse create_table_sql = Some (CreateTable true "access_logs" items)) /\
  (forall s,
      exists_table s "access_logs" = true ->
      exists s', srv_execute create_table_sql s = (Returns tt, s') /\
                 tables s' = tables s) /\
  (forall s,
      accepts s connection_params = true ->
      exists_table s "access_logs" = true ->
      exit_code (run mysql s) = 0%Z /\
      tables (final_world (run mysql s)) = tables s) /\
  (forall s,
      exit_code (run mysql s) = 0%Z ->
      exit_code (run mysql (final_world (run mysql s))) = 0%Z /\
      tables (final_world (run mysql (final_world (run mysql s))))
      = tables (final_world (run mysql s))).
Proof.
  assert (Hrun : forall s,
             accepts s connection_params = true ->
             exists_table s "access_logs" = true ->
             exit_code (run mysql s) = 0%Z /\
             tables (final_world (run mysql s)) = tables s).
  { intros s Hacc He. apply exists_table_lookup in He. destruct He as (t & Ht).
    rewrite (run_on_existing_table s t Hacc Ht). split; reflexivity. }
  split; [|split; [|split]].
  - destruct parse_create_table_sql as (items & Hp & _). now exists items.
  - intros s He. exists (with_result s None).
    split; [now apply execute_create_existing | reflexivity].
  - exact Hrun.
  - intros s H0.
    destruct (accepts s connection_params) eqn:Hacc.
    2:{ rewrite (run_access_denied s Hacc) in H0. discriminate. }
    destruct (exists_table s "access_logs") eqn:He.
    + apply exists_table_lookup in He. destruct He as (t & Ht).
      rewrite (run_on_existing_table s t Hacc Ht). cbn [final_world].
      apply Hrun; [exact Hacc|].
      apply exists_table_lookup. now exists t.
    + destruct (exists_table s "pump_users") eqn:Hp.
      2:{ rewrite (run_on_orphan_server s Hacc He Hp) in H0. discriminate. }
      rewrite (run_on_fresh_server s Hacc He Hp). cbn [final_world].
      apply Hrun; [exact Hacc|].
      unfold exists_table in *. cbn [with_access_logs with_result with_tables tables].
      rewrite lookup_app. destruct (lookup "access_logs" (tables s)); reflexivity.
Qed.

Lemma create_table_is_idempotent_witness :
  (exit_code (run mysql legacy_server) = 0%Z /\
   tables (final_world (run mysql legacy_server)) = tables legacy_server) /\
  (exit_code (run mysql (final_world (run mysql fresh_server))) = 0%Z /\
   tables (final_world (run mysql (final_world (run mysql fresh_server))))
   = tables (final_world (run mysql fresh_server))).
Proof.
  destruct create_table_is_idempotent as (_ & _ & Hrun & Hagain).
  split.
  - apply (Hrun legacy_server); reflexivity.
  - apply (Hagain fresh_server). vm_compute. reflexivity.
Defined.

(** ** What the listing shows *)

(** C7, as stated, fails: on a server where [access_logs] is already
    there with another structure, the conditional DDL leaves it alone,
    the run is successful, and the listing shows that table's two
    columns. *)
Lemma legacy_table_is_listed_as_it_is :
  exit_code (run mysql legacy_server) = 0%Z /\
  printed (trace (run mysql legacy_server))
  = [ "🔧 Connecting to production database...";
      "✅ Connected successfully!";
      "📝 Creating access_logs table...";
      "✅ Table created successfully!";
      "📊 Verification: Table exists! Found 1 match(es)";
      nl ++ "📋 Table structure:";
      "  - id: int NOT NULL";
      "  - note: text NULL";
      nl ++ "✨ Done! The access_logs table is now ready." ]%string.
Proof. split; vm_compute; reflexivity. Qed.

Lemma listing_of_describe_rows (cols : list column) :
  listing (map describe_row cols)
  = map (fun c => Print ("  - " ++ col_field c ++ ": " ++ col_type c ++ " "
                           ++ (if col_nullable c then "NULL" else "NOT NULL"))%string)
        cols.
Proof.
  unfold listing. rewrite map_map. apply map_ext. intros c.
  unfold listing_line, describe_row. cbn [nth str_value eq_str].
  now destruct (col_nullable c).
Qed.

(** C7, as the code has it: a run that creates the table (the server
    accepts the account, [access_logs] is absent, [pump_users] is there)
    is successful and lists exactly the seven columns of the DDL, [id],
    [user_id] and [access_type] as NOT NULL and the others as NULL
    ([created_at] as NOT NULL on a server that runs without
    [explicit_defaults_for_timestamp]); a run on a server that already
    has the table is successful and lists the columns that table has. *)
Theorem listing_shows_the_columns_of_the_table :
  (forall s,
      accepts s connection_params = true ->
      exists_table s "access_logs" = false ->
      exists_table s "pump_users" = true ->
      exit_code (run mysql s) = 0%Z /\
      exists result columns,
        trace (run mysql s)
        = upto_listing result columns
            ++ [ Print "  - id: int NOT NULL";
                 Print "  - user_id: int NOT NULL";
                 Print "  - access_type: varchar(50) NOT NULL";
                 Print "  - payment_amount_cents: int NULL";
                 Print "  - ip_address: varchar(45) NULL";
                 Print "  - user_agent: text NULL";
                 Print ("  - created_at: timestamp "
                          ++ (if explicit_defaults_for_timestamp s
                              then "NULL" else "NOT NULL"))%string ]
            ++ closing) /\
  (forall s t,
      accepts s connection_params = true ->
      lookup "access_logs" (tables s) = Some t ->
      exit_code (run mysql s) = 0%Z /\
      exists result columns,
        trace (run mysql s)
        = upto_listing result columns
            ++ map (fun c => Print ("  - " ++ col_field c ++ ": " ++ col_type c ++ " "
                                      ++ (if col_nullable c then "NULL" else "NOT NULL"))%string)
                   (tbl_columns t)
            ++ closing).
Proof.
  split.
  - intros s Hacc Ha Hp. rewrite (run_on_fresh_server s Hacc Ha Hp).
    split; [reflexivity|]. cbn [trace]. unfold success_trace.
    rewrite listing_of_describe_rows.
    destruct (explicit_defaults_for_timestamp s); do 2 eexists; reflexivity.
  - intros s t Hacc Ht. rewrite (run_on_existing_table s t Hacc Ht).
    split; [reflexivity|]. do 2 eexists. cbn [trace]. unfold success_trace.
    rewrite listing_of_describe_rows. reflexivity.
Qed.

Lemma listing_shows_the_columns_of_the_table_witness :
  exit_code (run mysql fresh_server) = 0%Z /\
  exists result columns,
    trace (run mysql fresh_server)
    = upto_listing result columns
        ++ [ Print "  - id: int NOT NULL";
             Print "  - user_id: int NOT NULL";
             Print "  - access_type: varchar(50) NOT NULL";
             Print "  - payment_amount_cents: int NULL";
             Print "  - ip_address: varchar(45) NULL";
             Print "  - user_agent: text NULL";
             Print "  - created_at: timestamp NULL" ]
        ++ closing.
Proof.
  apply (proj1 listing_shows_the_columns_of_the_table fresh_server); reflexivity.
Defined.

(** * Further properties of the script *)

(** ** Failures *)

(** A failed call in a trace is the [k]-th call of the program, and the
    run is the successful run up to it followed by the handler's
    report. *)
Lemma failed_call_shape {W : Type} (d : driver W) (w : W) (c : call) (e : exception) :
  In (Call c (Failed e)) (trace (run d w)) ->
  exit_code (run d w) = 1%Z /\
  exists k result columns,
    k < 10 /\ c = nth k program_calls Commit /\
    trace (run d w)
    = before_call k (success_trace result columns)
        ++ [ Call c (Failed e); Print (handler_line e) ].
Proof.
  intros Hin.
  destruct (run_total d w) as [result columns Hne Hw| |k e' result columns Hk
                              |result columns Hne Hw].
  - now apply success_trace_no_failure in Hin.
  - simpl in Hin. repeat (destruct Hin as [Hin|Hin]; [discriminate|]). tauto.
  - split; [reflexivity|].
    apply in_app_iff in Hin. destruct Hin as [Hin|Hin].
    + apply in_before_call in Hin. now apply success_trace_no_failure in Hin.
    + destruct Hin as [Hin|[Hin|[]]]; [|discriminate].
      injection Hin as Hc He. subst e' c. exists k, result, columns.
      split; [exact Hk|]. split; reflexivity.
  - rewrite !in_app_iff in Hin. destruct Hin as [Hin|[Hin|Hin]].
    + simpl in Hin. repeat (destruct Hin as [Hin|Hin]; [discriminate|]). tauto.
    + apply in_listing in Hin. destruct Hin as (col & Hin). discriminate.
    + destruct Hin as [Hin|[]]. discriminate.
Qed.

(** X1: a driver call that raises ends the run.  It is the last call the
    script makes, every call before it returned, it comes where the
    program has it, and the only thing after it is the report of the
    handler; the process exits with 1. *)
Theorem failed_call_ends_the_run {W : Type} (d : driver W) (w : W)
    (c : call) (e : exception) :
  In (Call c (Failed e)) (trace (run d w)) ->
  exit_code (run d w) = 1%Z /\
  exists before,
    trace (run d w) = before ++ [ Call c (Failed e); Print (handler_line e) ] /\
    (forall c' e', ~ In (Call c' (Failed e')) before) /\
    (exists rest, program_calls = calls_of before ++ c :: rest).
Proof.
  intros Hin. destruct (failed_call_shape d w c e Hin)
    as (H1 & k & result & columns & Hk & Hc & Htr).
  split; [exact H1|].
  exists (before_call k (success_trace result columns)).
  split; [exact Htr|]. split.
  - intros c' e' H. apply in_before_call in H.
    now apply success_trace_no_failure in H.
  - rewrite calls_of_before_call, calls_of_success.
    exists (skipn (S k) program_calls).
    rewrite Hc.
    change (nth k program_calls Commit :: skipn (S k) program_calls)
      with ([nth k program_calls Commit] ++ skipn (S k) program_calls).
    rewrite app_assoc, (firstn_snoc_nth k program_calls Commit Hk).
    symmetry. apply firstn_skipn.
Qed.

Lemma failed_call_ends_the_run_witness :
  exit_code (run playback answers_close_fails) = 1%Z /\
  exists before,
    trace (run playback answers_close_fails)
    = before ++ [ Call ConnectionClose
                    (Failed (MySQLError "2055: Lost connection to MySQL server"));
                  Print (handler_line
                           (MySQLError "2055: Lost connection to MySQL server")) ] /\
    (forall c' e', ~ In (Call c' (Failed e')) before) /\
    (exists rest, program_calls = calls_of before ++ ConnectionClose :: rest).
Proof.
  apply (failed_call_ends_the_run playback answers_close_fails).
  vm_compute. do 22 right. left. reflexivity.
Defined.

(** X3: a DESCRIBE row with fewer than three fields stops the listing.
    The rows before it are listed, the IndexError is reported by the
    second handler, neither [close] is called and the process exits with
    1. *)
Theorem short_row_raises_index_error {W : Type} (d : driver W) (w w8 : W)
    (result columns : list row) :
  reaches_listing d w result columns w8 ->
  forallb wide columns = false ->
  run d w
  = {| exit_code := 1;
       trace := upto_listing result columns
                  ++ listing (listed columns)
                  ++ [ Print "💥 Error: tuple index out of range" ];
       final_world := w8 |}.
Proof.
  intros (w6 & w7 & (w1 & w2 & w3 & w4 & w5 & H1 & H2 & H3 & H4 & H5 & H6)
          & Hne & H7 & H8) Hwide.
  unfold_script. along H1. along H2. along H3. along H4. along H5. along H6.
  destruct result as [|r0 result']; [congruence|]. cbn [fst snd app].
  along H7. along H8. rewrite print_columns_spec, Hwide.
  cbn [fst snd app find_handler class_of issubclass exit_status].
  repeat rewrite <- app_assoc. reflexivity.
Qed.

Lemma short_row_raises_index_error_witness :
  printed (trace (run playback
                    [ AOk; AOk; AOk; AOk; AOk; ARows [[VStr "access_logs"]]; AOk;
                      ARows [ [VStr "id"; VBytes "int"; VStr "NO"]; [VStr "x"];
                              [VStr "y"; VStr "text"; VStr "YES"] ];
                      AOk; AOk ]))
  = [ "🔧 Connecting to production database...";
      "✅ Connected successfully!";
      "📝 Creating access_logs table...";
      "✅ Table created successfully!";
      "📊 Verification: Table exists! Found 1 match(es)";
      nl ++ "📋 Table structure:";
      "  - id: b'int' NOT NULL";
      "💥 Error: tuple index out of range" ]%string.
Proof.
  rewrite (short_row_raises_index_error playback _ [AOk; AOk]
             [[VStr "access_logs"%string]]
             [ [VStr "id"; VBytes "int"; VStr "NO"]; [VStr "x"];
               [VStr "y"; VStr "text"; VStr "YES"] ]%string).
  - reflexivity.
  - eexists _, _. repeat split; [repeat eexists | discriminate | reflexivity..].
  - reflexivity.
Defined.

(** ** What the printed lines say *)

Lemma last_app_nonempty {A : Type} (l l' : list A) (a : A) :
  l' <> [] -> last (l ++ l') a = last l' a.
Proof.
  intros Hne. induction l as [|x l IH]; [reflexivity|].
  cbn [app]. destruct (l ++ l') as [|y t] eqn:E.
  - apply app_eq_nil in E. destruct E as [_ E]. contradiction.
  - cbn [last]. exact IH.
Qed.

(** The last event of a run, shape by shape. *)
Lemma last_event_of_run {W : Type} (d : driver W) (w : W) :
  (exit_code (run d w) = 0%Z /\
   last (trace (run d w)) (Print "")
   = Print (nl ++ "✨ Done! The access_logs table is now ready.")%string) \/
  (exit_code (run d w) = 1%Z /\
   (last (trace (run d w)) (Print "")
    = Print "❌ ERROR: Table not found after creation!" \/
    exists e, last (trace (run d w)) (Print "") = Print (handler_line e))).
Proof.
  destruct (run_total d w) as [result columns Hne Hw| |k e result columns Hk
                              |result columns Hne Hw].
  - left. split; [reflexivity|]. unfold success_trace.
    rewrite app_assoc, last_app_nonempty; [reflexivity | discriminate].
  - right. split; [reflexivity|]. left. reflexivity.
  - right. split; [reflexivity|]. right. exists e.
    rewrite last_app_nonempty; [reflexivity | discriminate].
  - right. split; [reflexivity|]. right.
    exists (OtherException "tuple index out of range").
    rewrite app_assoc, last_app_nonempty; [reflexivity | discriminate].
Qed.

(** X2: the last line printed tells how the run ended.  The process exits
    with 0 exactly when the last event is the [✨ Done!] line, and with 1
    exactly when it is one of the three error lines: the verification
    error, the report of the database handler, or the report of the
    generic handler. *)
Theorem last_line_tells_the_outcome {W : Type} (d : driver W) (w : W) :
  (exit_code (run d w) = 0%Z <->
   last (trace (run d w)) (Print "")
   = Print (nl ++ "✨ Done! The access_logs table is now ready.")%string) /\
  (exit_code (run d w) = 1%Z <->
   last (trace (run d w)) (Print "")
   = Print "❌ ERROR: Table not found after creation!" \/
   (exists msg, last (trace (run d w)) (Print "")
                = Print ("❌ MySQL Error: " ++ msg)%string) \/
   (exists msg, last (trace (run d w)) (Print "")
                = Print ("💥 Error: " ++ msg)%string)).
Proof.
  destruct (last_event_of_run d w) as [[H0 Hl]|[H1 Hl]].
  - rewrite H0, Hl. split; split; try discriminate; try reflexivity.
    intros [H|[[msg H]|[msg H]]]; discriminate H.
  - rewrite H1. split.
    + split; [discriminate|]. intros H. exfalso. rewrite H in Hl.
      destruct Hl as [Hl|[[msg|msg] Hl]]; discriminate Hl.
    + split; [|reflexivity]. intros _.
      destruct Hl as [Hl|[[msg|msg] Hl]]; [now left | right; left | right; right];
        exists msg; exact Hl.
Qed.

Lemma last_line_tells_the_outcome_witness :
  exit_code (run playback answers_ok) = 0%Z /\
  exit_code (run playback answers_access_denied) = 1%Z.
Proof.
  split.
  - apply (proj1 (last_line_tells_the_outcome playback answers_ok)). reflexivity.
  - apply (proj2 (last_line_tells_the_outcome playback answers_access_denied)).
    right. left. eexists. reflexivity.
Defined.

(** The verification error is printed on the verification-failure path
    only. *)
Lemma not_found_line_shape {W : Type} (d : driver W) (w : W) :
  In (Print "❌ ERROR: Table not found after creation!") (trace (run d w)) ->
  trace (run d w) = not_found_trace.
Proof.
  assert (Hs : forall result columns,
             ~ In (Print "❌ ERROR: Table not found after creation!")
                  (success_trace result columns)).
  { intros result columns. unfold success_trace. rewrite !in_app_iff.
    intros [H|[H|H]].
    - simpl in H. repeat (destruct H as [H|H]; [discriminate H|]). exact H.
    - apply in_listing in H. destruct H as (col & H). discriminate H.
    - simpl in H. repeat (destruct H as [H|H]; [discriminate H|]). exact H. }
  intros Hin.
  destruct (run_total d w) as [result columns Hne Hw| |k e result columns Hk
                              |result columns Hne Hw].
  - now apply Hs in Hin.
  - reflexivity.
  - exfalso. apply in_app_iff in Hin. destruct Hin as [Hin|Hin].
    + apply in_before_call in Hin. now apply Hs in Hin.
    + destruct e; simpl in Hin;
        repeat (destruct Hin as [Hin|Hin]; [discriminate Hin|]); exact Hin.
  - exfalso. rewrite !in_app_iff in Hin. destruct Hin as [Hin|[Hin|Hin]].
    + simpl in Hin. repeat (destruct Hin as [Hin|Hin]; [discriminate Hin|]).
      exact Hin.
    + apply in_listing in Hin. destruct Hin as (col & Hin). discriminate Hin.
    + simpl in Hin. repeat (destruct Hin as [Hin|Hin]; [discriminate Hin|]).
      exact Hin.
Qed.

(** X5: the line [❌ ERROR: Table not found after creation!] is printed
    only on the verification-failure path: a run that prints it made the
    six calls up to the catalog fetch, every one of them returned, the
    fetch returned no row, and nothing was printed or called after the
    line. *)
Theorem not_found_line_means_empty_verification {W : Type} (d : driver W) (w : W) :
  In (Print "❌ ERROR: Table not found after creation!") (trace (run d w)) ->
  trace (run d w) = not_found_trace /\
  exit_code (run d w) = 1%Z /\
  In (Call Fetchall (Rows [])) (trace (run d w)) /\
  calls_of (trace (run d w)) = firstn 6 program_calls.
Proof.
  intros Hin. pose proof (not_found_line_shape d w Hin) as Htr.
  split; [exact Htr|]. split.
  - destruct (last_event_of_run d w) as [[H0 Hl]|[H1 _]]; [|exact H1].
    rewrite Htr in Hl. discriminate Hl.
  - rewrite Htr. split; [|reflexivity]. simpl. do 9 right. left. reflexivity.
Qed.

Lemma not_found_line_means_empty_verification_witness :
  trace (run playback answers_not_found) = not_found_trace /\
  exit_code (run playback answers_not_found) = 1%Z /\
  In (Call Fetchall (Rows [])) (trace (run playback answers_not_found)) /\
  calls_of (trace (run playback answers_not_found)) = firstn 6 program_calls.
Proof.
  apply (not_found_line_means_empty_verification playback answers_not_found).
  simpl. do 10 right. left. reflexivity.
Defined.

(** Finds an event among the first events of a trace. *)
Ltac in_front := cbn [In]; repeat (first [left; reflexivity | right]).

(** Refutes the presence of an event in a trace that is written out. *)
Ltac not_in H :=
  simpl in H; repeat (destruct H as [H|H]; [discriminate H|]); exact H.

(** Settles an equivalence between the presence of two events when both
    are among the first events of the trace, or both are absent from a
    trace that is written out. *)
Ltac both_or_neither :=
  let H := fresh "H" in
  split; intros H; first [ solve [in_front] | solve [exfalso; not_in H] ].

(** X4: the two success lines report calls that returned, whatever comes
    after them.  [✅ Connected successfully!] is printed exactly when
    [connect] returned, and [✅ Table created successfully!] exactly when
    [commit] returned, so the second is also printed by runs whose
    verification then fails. *)
Theorem success_lines_follow_the_calls {W : Type} (d : driver W) (w : W) :
  (In (Print "✅ Connected successfully!") (trace (run d w)) <->
   In (Call (Connect connection_params) Done) (trace (run d w))) /\
  (In (Print "✅ Table created successfully!") (trace (run d w)) <->
   In (Call Commit Done) (trace (run d w))).
Proof.
  destruct (run_total d w) as [result columns Hne Hw| |k e result columns Hk
                              |result columns Hne Hw].
  - unfold success_trace. cbn [upto_listing app]. split; both_or_neither.
  - unfold not_found_trace. split; both_or_neither.
  - unfold success_trace. cbn [upto_listing app].
    do 10 (destruct k as [|k];
           [destruct e; cbn [before_call app nth program_calls handler_line];
            split; both_or_neither|]).
    lia.
  - cbn [upto_listing app]. split; both_or_neither.
Qed.

Lemma success_lines_follow_the_calls_witness :
  In (Print "✅ Table created successfully!") (trace (run playback answers_not_found)) /\
  exit_code (run playback answers_not_found) = 1%Z.
Proof.
  split; [|reflexivity].
  apply (proj2 (success_lines_follow_the_calls playback answers_not_found)).
  simpl. do 6 right. left. reflexivity.
Defined.

(** ** The connection *)

Lemma calls_are_a_prefix {W : Type} (d : driver W) (w : W) :
  exists rest, program_calls = calls_of (trace (run d w)) ++ rest.
Proof.
  destruct (run_total d w) as [result columns Hne Hw| |k e result columns Hk
                              |result columns Hne Hw].
  - exists []. now rewrite calls_of_success, app_nil_r.
  - eexists. reflexivity.
  - rewrite (calls_of_failed k e result columns Hk).
    exists (skipn (S k) program_calls). symmetry. apply firstn_skipn.
  - rewrite calls_of_index_error. exists (skipn 8 program_calls). reflexivity.
Qed.

(** X6: every run starts with the connecting line and then makes one
    connection attempt, with the parameters written on lines 14-19; no
    second attempt follows, whatever the first one answers. *)
Theorem connects_once_with_fixed_parameters {W : Type} (d : driver W) (w : W) :
  exists r rest,
    trace (run d w)
    = Print "🔧 Connecting to production database..."
        :: Call (Connect connection_params) r :: rest /\
    forall p r', ~ In (Call (Connect p) r') rest.
Proof.
  assert (Hhead : exists r rest,
             trace (run d w)
             = Print "🔧 Connecting to production database..."
                 :: Call (Connect connection_params) r :: rest).
  { destruct (run_total d w) as [result columns Hne Hw| |k e result columns Hk
                                |result columns Hne Hw].
    - unfold success_trace. cbn [upto_listing app]. eexists _, _. reflexivity.
    - eexists _, _. reflexivity.
    - unfold success_trace. cbn [upto_listing app].
      destruct k as [|k]; cbn [before_call app nth program_calls];
        eexists _, _; reflexivity.
    - cbn [upto_listing app]. eexists _, _. reflexivity. }
  destruct Hhead as (r & rest & Htr). exists r, rest. split; [exact Htr|].
  intros p r' Hin. destruct (calls_are_a_prefix d w) as (rest' & Hpre).
  rewrite Htr in Hpre. cbn [calls_of app] in Hpre.
  apply in_calls_of in Hin.
  assert (Hin' : In (Connect p) (calls_of rest ++ rest'))
    by (apply in_or_app; now left).
  unfold program_calls in Hpre. injection Hpre as Hpre. rewrite <- Hpre in Hin'.
  not_in Hin'.
Qed.

(** ** Guards between the steps *)

(** Settles the two guards of [later_steps_need_earlier_ones] at the end
    of one path through the script. *)
Ltac guards_at_leaf witness :=
  cbn [fst snd app find_handler class_of issubclass exit_status exit_code trace];
  split;
  [ let r := fresh "r" in
    let H := fresh "H" in
    intros r H; first [ solve [in_front] | solve [exfalso; not_in H] ]
  | let r := fresh "r" in
    let H := fresh "H" in
    intros r H;
    first [ solve [exfalso; not_in H]
          | solve [exists witness; split; [discriminate | in_front]] ] ].

(** X10: a later step is attempted only when the earlier ones went
    through.  [commit] is called only after the DDL has been executed
    without an exception, and the DESCRIBE query is sent only after the
    catalog query has returned at least one row. *)
Theorem later_steps_need_earlier_ones {W : Type} (d : driver W) (w : W) :
  (forall r,
      In (Call Commit r) (trace (run d w)) ->
      In (Call (Execute create_table_sql) Done) (trace (run d w))) /\
  (forall r,
      In (Call (Execute describe_sql) r) (trace (run d w)) ->
      exists result,
        result <> [] /\ In (Call Fetchall (Rows result)) (trace (run d w))).
Proof.
  unfold_script.
  branch (connect d connection_params w) w1 e E1;
    [|destruct e; guards_at_leaf (@nil row)].
  branch (cursor d w1) w2 e E2; [|destruct e; guards_at_leaf (@nil row)].
  branch (execute d create_table_sql w2) w3 e E3;
    [|destruct e; guards_at_leaf (@nil row)].
  branch (commit d w3) w4 e E4; [|destruct e; guards_at_leaf (@nil row)].
  branch (execute d show_tables_sql w4) w5 e E5;
    [|destruct e; guards_at_leaf (@nil row)].
  branch_rows (fetchall d w5) result w6 e E6;
    [|destruct e; guards_at_leaf (@nil row)].
  destruct result as [|r0 result']; [guards_at_leaf (@nil row)|].
  cbn [fst snd app exit_status exit_code trace].
  branch (execute d describe_sql w6) w7 e E7;
    [|destruct e; guards_at_leaf (r0 :: result')].
  branch_rows (fetchall d w7) columns w8 e E8;
    [|destruct e; guards_at_leaf (r0 :: result')].
  rewrite print_columns_spec. destruct (forallb wide columns);
    [|guards_at_leaf (r0 :: result')].
  cbn [fst snd app].
  branch (cursor_close d w8) w9 e E9;
    [|destruct e; guards_at_leaf (r0 :: result')].
  branch (connection_close d w9) w10 e E10;
    [|destruct e; guards_at_leaf (r0 :: result')].
  guards_at_leaf (r0 :: result').
Qed.

Lemma later_steps_need_earlier_ones_witness :
  In (Call (Execute create_table_sql) Done) (trace (run playback answers_not_found)) /\
  exists result,
    result <> [] /\ In (Call Fetchall (Rows result)) (trace (run playback answers_ok)).
Proof.
  split.
  - apply (proj1 (later_steps_need_earlier_ones playback answers_not_found) Done).
    simpl. do 6 right. left. reflexivity.
  - apply (proj2 (later_steps_need_earlier_ones playback answers_ok) Done).
    simpl. do 11 right. left. reflexivity.
Defined.
